(** * algosrest.client.parallel: a shallow embedding and its properties

    The module under study is [src/algosrest/client/parallel.py]: the
    request descriptor [RequestInfo], the worker pool [ProcessPool] and the
    dispatcher [RequestPool] with its methods [request], [batch_request],
    [single_request], [chunks] and [shutdown].

    Python values are embedded as follows.
    - [int] is [Z]; [len] is a [nat] injected into [Z] where Python mixes it
      with integers.
    - [str] is [string], read as the UTF-8 encoding of the text, so that
      [s.encode("utf-8")] keeps the bytes and [len] of the encoded value is
      [String.length].
    - [float] is the primitive binary64 type, with its own subtraction.
    - exceptions are the constructors of [exn]; a computation that may
      raise returns a [result].
    - the calls into [http.client], [time] and [concurrent.futures] are the
      primitives of a small state-and-error monad over an explicit
      environment (what the server answers, what the clock shows) and an
      explicit log of the calls that the module makes. The library
      behaviour embedded is that of CPython 3.11 on a POSIX system. *)

From Stdlib Require Import Floats.PrimFloat.
From Stdlib Require Import ZArith String Ascii Bool Lia DecimalString List.
Import ListNotations.

Local Open Scope string_scope.
Local Open Scope list_scope.
Local Open Scope Z_scope.

(** ** Exceptions and results *)

Inductive exn : Type :=
| TypeError (msg : string)
| ValueError (msg : string)
| RuntimeError (msg : string)
| UnicodeDecodeError
| TransportError (msg : string)
| InvalidURL
| OverflowError (msg : string).

Inductive result (A : Type) : Type :=
| Ok (a : A)
| Raise (e : exn).

Arguments Ok {A} a.
Arguments Raise {A} e.

Definition is_ok {A} (r : result A) : bool :=
  match r with Ok _ => true | Raise _ => false end.

Module PyList.

(** ** [range] and slicing *)

(** Number of elements of [range(lo, hi, step)] for a non-zero step, as
    CPython computes it. *)
Definition range_len (lo hi step : Z) : Z :=
  if (0 <? step) && (lo <? hi) then (hi - lo - 1) / step + 1
  else if (step <? 0) && (hi <? lo) then (lo - hi - 1) / (- step) + 1
  else 0.

(** [list(range(lo, hi, step))]; a zero step raises [ValueError]. *)
Definition range (lo hi step : Z) : result (list Z) :=
  if step =? 0 then Raise (ValueError "range() arg 3 must not be zero")
  else Ok (map (fun k => lo + Z.of_nat k * step)
               (seq 0 (Z.to_nat (range_len lo hi step)))).

(** A slice bound is taken from the end when negative and then clamped to
    [0 .. len]. *)
Definition clamp_index (len i : Z) : Z :=
  let i' := if i <? 0 then i + len else i in
  if i' <? 0 then 0 else if len <? i' then len else i'.

(** [xs[i:j]] *)
Definition slice {A : Type} (xs : list A) (i j : Z) : list A :=
  let len := Z.of_nat (length xs) in
  let lo := clamp_index len i in
  let hi := clamp_index len j in
  firstn (Z.to_nat (hi - lo)) (skipn (Z.to_nat lo) xs).

End PyList.

(** ** [RequestPool.chunks]

    [chunks] is a generator; the embedding is the list obtained by
    consuming it, [list(RequestPool.chunks(array, n))], so an exception
    raised while the generator runs is the result of the consumption.

<<
    for i in range(0, len(array), n):
        yield array[i:i+n]
>> *)
Definition chunks {A : Type} (array : list A) (n : Z) : result (list (list A)) :=
  match PyList.range 0 (Z.of_nat (length array)) n with
  | Raise e => Raise e
  | Ok idx => Ok (map (fun i => PyList.slice array i (i + n)) idx)
  end.

(** Ceiling of [a / b] for a positive divisor. *)
Definition ceil_div (a b : Z) : Z := (a + b - 1) / b.

(** ** Text and bytes *)

Module Text.

Definition byte (c : ascii) : Z := Z.of_N (N_of_ascii c).

Definition between (lo hi : Z) (c : ascii) : bool :=
  (lo <=? byte c) && (byte c <=? hi).

Definition upper_ascii (c : ascii) : ascii :=
  if between 97 122 c then ascii_of_N (N_of_ascii c - 32) else c.

(** [s.upper()] on ASCII text: the letters [a] to [z] are mapped to upper
    case. The bytes of any other character are kept, which is not what
    [str.upper] does to letters outside ASCII. *)
Fixpoint upper (s : string) : string :=
  match s with
  | EmptyString => EmptyString
  | String c s' => String (upper_ascii c) (upper s')
  end.

(** [str(z)] for an [int]. *)
Definition str_of_Z (z : Z) : string := NilZero.string_of_int (Z.to_int z).

(** [str(len(b))] *)
Definition str_of_nat (n : nat) : string := NilZero.string_of_uint (Nat.to_uint n).

(** Second byte of a three-byte and of a four-byte sequence: the ranges
    that exclude over-long forms, surrogates and code points above
    U+10FFFF. *)
Definition second_of_3 (c0 c1 : ascii) : bool :=
  if byte c0 =? 224 then between 160 191 c1
  else if byte c0 =? 237 then between 128 159 c1
  else between 128 191 c1.

Definition second_of_4 (c0 c1 : ascii) : bool :=
  if byte c0 =? 240 then between 144 191 c1
  else if byte c0 =? 244 then between 128 143 c1
  else between 128 191 c1.

(** Whether a byte string is well-formed UTF-8, which is when
    [b.decode("utf-8")] succeeds. *)
Fixpoint utf8_valid (b : string) : bool :=
  match b with
  | EmptyString => true
  | String c0 b1 =>
      if byte c0 <=? 127 then utf8_valid b1
      else
        match b1 with
        | EmptyString => false
        | String c1 b2 =>
            if between 194 223 c0 then between 128 191 c1 && utf8_valid b2
            else
              match b2 with
              | EmptyString => false
              | String c2 b3 =>
                  if between 224 239 c0
                  then second_of_3 c0 c1 && between 128 191 c2 && utf8_valid b3
                  else
                    match b3 with
                    | EmptyString => false
                    | String c3 b4 =>
                        between 240 244 c0 && second_of_4 c0 c1
                        && between 128 191 c2 && between 128 191 c3
                        && utf8_valid b4
                    end
              end
        end
  end.

(** Whether every character of a text passes a test. *)
Fixpoint all_chars (p : ascii -> bool) (s : string) : bool :=
  match s with
  | EmptyString => true
  | String c s' => p c && all_chars p s'
  end.

End Text.

(** ** The environment of a worker and the state-and-error monad *)

(** A request as handed to [HTTPConnection.request]: the headers are the
    [dict] literal of the source, in insertion order. *)
Record http_request : Type := {
  rq_method : string;
  rq_url : string;
  rq_body : option string;
  rq_headers : list (string * string)
}.

(** What the other side does with one exchange: [conn.request] raises,
    [conn.getresponse] raises, [response.read] raises, or a body comes
    back. *)
Inductive outcome : Type :=
| SendError (msg : string)
| ResponseError (msg : string)
| ReadError (msg : string)
| Reply (body : string).

(** What a worker meets while it runs: [now k] is the value of the [k]-th
    call of [time.time()], a binary64 number; [server k rq] is the fate of
    the [k]-th exchange when the request sent is [rq]. *)
Record env : Type := {
  now : nat -> PrimFloat.float;
  server : nat -> http_request -> outcome
}.

(** The calls that the module makes on the libraries, in the order made,
    with what they gave: the executor created, a connection object
    created, a reading of the clock, a request handed to a connection, a
    body read from a response, [close] called on a connection. What
    [http.client] does to its socket inside one of these calls is not
    recorded. *)
Inductive event : Type :=
| PoolCreated (max_workers : Z)
| Opened (conn : nat) (host : string) (port : Z)
| Clock (t : PrimFloat.float)
| Sent (conn : nat) (rq : http_request)
| Received (conn : nat) (body : string)
| Closed (conn : nat).

Record state : Type := {
  ticks : nat;
  conns : nat;
  exchanges : nat;
  pending : option http_request;
  log : list event
}.

Definition initial : state :=
  {| ticks := 0; conns := 0; exchanges := 0; pending := None; log := [] |}.

Definition M (A : Type) : Type := state -> result A * state.

Definition ret {A} (a : A) : M A := fun s => (Ok a, s).

Definition raise {A} (e : exn) : M A := fun s => (Raise e, s).

Definition bind {A B} (m : M A) (k : A -> M B) : M B :=
  fun s =>
    match m s with
    | (Ok a, s') => k a s'
    | (Raise e, s') => (Raise e, s')
    end.

Declare Scope py_scope.
Delimit Scope py_scope with py.
Notation "x <- m ;; k" := (bind m (fun x => k))
  (at level 61, m at next level, right associativity) : py_scope.
Notation "m ;; k" := (bind m (fun _ => k))
  (at level 61, right associativity) : py_scope.
Local Open Scope py_scope.

Definition emit (e : event) : M unit :=
  fun s =>
    (Ok tt, {| ticks := ticks s; conns := conns s; exchanges := exchanges s;
               pending := pending s; log := log s ++ [e] |}).

(** [time.time()] *)
Definition time_time (w : env) : M PrimFloat.float :=
  fun s =>
    (Ok (now w (ticks s)),
     {| ticks := S (ticks s); conns := conns s; exchanges := exchanges s;
        pending := pending s; log := log s ++ [Clock (now w (ticks s))] |}).

(** The host names that [HTTPConnection] accepts: those without a
    character in [\x00-\x20] and without [\x7f]. *)
Definition valid_host (host : string) : bool :=
  Text.all_chars
    (fun c => negb ((Text.byte c <=? 32) || (Text.byte c =? 127))) host.

(** [http.client.HTTPConnection(host, port)] with a port given: a new
    connection object, or [InvalidURL] when the host name is refused. The
    message of the exception, which quotes the host, is not kept. *)
Definition HTTPConnection (host : string) (port : Z) : M nat :=
  fun s =>
    if valid_host host then
      (Ok (conns s),
       {| ticks := ticks s; conns := S (conns s); exchanges := exchanges s;
          pending := pending s; log := log s ++ [Opened (conns s) host port] |})
    else (Raise InvalidURL, s).

(** [conn.request(method, url, body=body, headers=headers)] *)
Definition conn_request (w : env) (conn : nat) (method url : string)
    (body : option string) (headers : list (string * string)) : M unit :=
  fun s =>
    let rq := {| rq_method := method; rq_url := url;
                 rq_body := body; rq_headers := headers |} in
    let lg := log s ++ [Sent conn rq] in
    match server w (exchanges s) rq with
    | SendError msg =>
        (Raise (TransportError msg),
         {| ticks := ticks s; conns := conns s; exchanges := exchanges s;
            pending := pending s; log := lg |})
    | _ =>
        (Ok tt,
         {| ticks := ticks s; conns := conns s; exchanges := exchanges s;
            pending := Some rq; log := lg |})
    end.

(** The response object: the connection it came from and what [read()]
    will give. *)
Record HTTPResponse : Type := { of_conn : nat; content : result string }.

(** [conn.getresponse()] *)
Definition conn_getresponse (w : env) (conn : nat) : M HTTPResponse :=
  fun s =>
    match pending s with
    | None => (Raise (TransportError "ResponseNotReady"), s)
    | Some rq =>
        let s' := {| ticks := ticks s; conns := conns s;
                     exchanges := S (exchanges s);
                     pending := None; log := log s |} in
        match server w (exchanges s) rq with
        | Reply body => (Ok {| of_conn := conn; content := Ok body |}, s')
        | ReadError msg =>
            (Ok {| of_conn := conn; content := Raise (TransportError msg) |}, s')
        | ResponseError msg => (Raise (TransportError msg), s')
        | SendError msg => (Raise (TransportError msg), s')
        end
    end.

(** [response.read()] *)
Definition response_read (r : HTTPResponse) : M string :=
  fun s =>
    match content r with
    | Ok body =>
        (Ok body,
         {| ticks := ticks s; conns := conns s; exchanges := exchanges s;
            pending := pending s; log := log s ++ [Received (of_conn r) body] |})
    | Raise e => (Raise e, s)
    end.

(** [b.decode("utf-8")] *)
Definition bytes_decode (b : string) : M string :=
  if Text.utf8_valid b then ret b else raise UnicodeDecodeError.

(** [conn.close()] *)
Definition conn_close (conn : nat) : M unit := emit (Closed conn).

(** The calls of one exchange that is answered, the clock being read for
    the [t]-th time before it. *)
Definition exchange_events (w : env) (conn : nat) (t : nat)
    (rq : http_request) (body : string) : list event :=
  [Clock (now w t); Sent conn rq; Received conn body; Clock (now w (S t))].

(** The calls of a log that create a connection, issue a request on one
    or close one. *)
Definition is_connection_call (e : event) : bool :=
  match e with
  | Opened _ _ _ => true
  | Sent _ _ => true
  | Closed _ => true
  | _ => false
  end.

Definition connection_calls (l : list event) : list event :=
  filter is_connection_call l.

(** ** Pickling

    The executor sends a job to its worker with [pickle]. An object is
    given here by what matters to that: a lock cannot be pickled, plain
    data and module-level functions can, an instance is pickled through
    its attributes and a bound method through its instance. *)
#[local] Set Warnings "-register-all".
Inductive pyobject : Type :=
| OLock
| OData
| OFunction
| OInstance (attrs : list pyobject)
| OMethod (self : pyobject).
#[local] Set Warnings "register-all".

(** The exception that [pickle.dumps] raises on an object, if any: that of
    the first part, in attribute order, that cannot be pickled. *)
Fixpoint pickle_error (o : pyobject) : option exn :=
  match o with
  | OLock => Some (TypeError "cannot pickle '_thread.lock' object")
  | OData => None
  | OFunction => None
  | OInstance attrs =>
      (fix first (l : list pyobject) : option exn :=
         match l with
         | [] => None
         | a :: l' =>
             match pickle_error a with
             | Some e => Some e
             | None => first l'
             end
         end) attrs
  | OMethod self => pickle_error self
  end.

(** A callable handed to the executor: what calling it computes in a
    worker that meets [W], and the object that has to be pickled. *)
Record Callable (W A B : Type) : Type := {
  call : W -> A -> B;
  as_object : pyobject
}.

Arguments call {W A B} c w a.
Arguments as_object {W A B} c.

(** ** [ProcessPool] *)

(** The state of a [concurrent.futures.ProcessPoolExecutor] that the
    module can observe. *)
Record Executor : Type := { max_workers : Z; shut : bool }.

(** An executor as an object: among its attributes is the lock
    [_shutdown_lock]. *)
Definition Executor_object : pyobject := OInstance [OData; OLock].

(** [futures.ProcessPoolExecutor(max_workers=n)]: a count that is not
    positive is refused, and so is one whose call queue, of size [n + 1],
    has a bound that does not fit a C [int]. *)
Definition ProcessPoolExecutor (n : Z) : M Executor :=
  if n <=? 0 then raise (ValueError "max_workers must be greater than 0")
  else if 2147483647 <? n + 1
  then raise (OverflowError "Python int too large to convert to C int")
  else (emit (PoolCreated n) ;; ret {| max_workers := n; shut := false |}).

(** What a future ends with: the value of its job, or the exception set
    on it. *)
Inductive Future (B : Type) : Type :=
| Done (b : B)
| Failed (e : exn).

Arguments Done {B} b.
Arguments Failed {B} e.

(** [executor.submit(fn, arg)]: after shutdown the call raises; otherwise
    it returns a future. The job is pickled to reach its worker: when the
    callable cannot be pickled the future ends with the pickling error and
    the job is not run; otherwise it ends with what [fn] computes on [arg]
    in a worker that meets [w]. The arguments and the value are plain data
    in every use made here. *)
Definition Executor_submit {W A B : Type} (ex : Executor) (w : W)
    (fn : Callable W A B) (arg : A) : result (Future B) :=
  if shut ex
  then Raise (RuntimeError "cannot schedule new futures after shutdown")
  else Ok match pickle_error (as_object fn) with
          | Some e => Failed e
          | None => Done (call fn w arg)
          end.

(** The iterator that [executor.map] returns, as the futures it has still
    to yield, in the order of submission. *)
Definition ResultIterator (B : Type) : Type := list (Future B).

(** [executor.map(fn, iterable)]: one [submit] per element, all made
    before the call returns (in [concurrent.futures] the futures are
    collected in a list comprehension over the arguments before the result
    iterator is built); the [k]-th job meets [ws k]. *)
Fixpoint Executor_map_from {W A B : Type} (ex : Executor) (ws : nat -> W)
    (fn : Callable W A B) (k : nat) (iterable : list A)
  : result (ResultIterator B) :=
  match iterable with
  | [] => Ok []
  | arg :: rest =>
      match Executor_submit ex (ws k) fn arg with
      | Raise e => Raise e
      | Ok f =>
          match Executor_map_from ex ws fn (S k) rest with
          | Raise e => Raise e
          | Ok fs => Ok (f :: fs)
          end
      end
  end.

Definition Executor_map {W A B : Type} (ex : Executor) (ws : nat -> W)
    (fn : Callable W A B) (iterable : list A) : result (ResultIterator B) :=
  Executor_map_from ex ws fn 0 iterable.

(** [next(iterator)]: the value of the next future, [None] standing for
    [StopIteration]; a future that failed raises its exception, which ends
    the iterator: the futures after it are cancelled and never yielded. *)
Definition iterator_next {B : Type} (it : ResultIterator B)
  : result (option B) * ResultIterator B :=
  match it with
  | [] => (Ok None, [])
  | Done b :: rest => (Ok (Some b), rest)
  | Failed e :: _ => (Raise e, [])
  end.

(** [list(iterator)] *)
Fixpoint iterator_list {B : Type} (it : ResultIterator B) : result (list B) :=
  match it with
  | [] => Ok []
  | Done b :: rest =>
      match iterator_list rest with
      | Ok bs => Ok (b :: bs)
      | Raise e => Raise e
      end
  | Failed e :: _ => Raise e
  end.

(** [executor.shutdown(wait=True)] *)
Definition Executor_shutdown (ex : Executor) : Executor :=
  {| max_workers := max_workers ex; shut := true |}.

Record ProcessPool : Type := { n_workers : Z; executor : Executor }.

(** A pool as an object: its attributes are the worker count and the
    executor. *)
Definition ProcessPool_object : pyobject := OInstance [OData; Executor_object].

(** [ProcessPool.__init__] *)
Definition ProcessPool_init (n : Z) : M ProcessPool :=
  ex <- ProcessPoolExecutor n ;;
  ret {| n_workers := n; executor := ex |}.

(** [ProcessPool.batch] *)
Definition ProcessPool_batch {W A B : Type} (p : ProcessPool) (ws : nat -> W)
    (func : Callable W A B) (iterables : list A) : result (ResultIterator B) :=
  Executor_map (executor p) ws func iterables.

(** [ProcessPool.single] *)
Definition ProcessPool_single {W A B : Type} (p : ProcessPool) (w : W)
    (func : Callable W A B) (arg : A) : result (Future B) :=
  Executor_submit (executor p) w func arg.

(** [ProcessPool.shutdown] *)
Definition ProcessPool_shutdown (p : ProcessPool) : ProcessPool :=
  {| n_workers := n_workers p; executor := Executor_shutdown (executor p) |}.

(** ** [RequestInfo] and [RequestPool] *)

Section Embedding.

(** The payload of a request, a JSON-serialisable [dict], and
    [json.dumps] on it. *)
Variable Payload : Type.
Variable json_dumps : Payload -> string.

Record RequestInfo : Type := {
  endpoint : string;
  method : string;
  data : option Payload
}.

(** [RequestInfo.__init__]

<<
    self.endpoint = endpoint
    self.method = method.upper()
    self.data = data
>> *)
Definition RequestInfo_init (endpoint method : string) (data : option Payload)
  : result RequestInfo :=
  Ok {| endpoint := endpoint; method := Text.upper method; data := data |}.

(** Instances live in a store and are known by their address. *)
Definition heap : Type := list RequestInfo.

Definition deref (h : heap) (a : nat) : option RequestInfo := nth_error h a.

(** The expression [RequestInfo(endpoint, method, data)]: a fresh object,
    initialised by [__init__]. *)
Definition RequestInfo_new (h : heap) (endpoint method : string)
    (data : option Payload) : result (nat * heap) :=
  match RequestInfo_init endpoint method data with
  | Ok r => Ok (length h, h ++ [r])
  | Raise e => Raise e
  end.

(** [a == b] on two instances: the class defines no [__eq__], so the
    comparison is the one inherited from [object], identity. *)
Definition RequestInfo_eq (a b : nat) : bool := Nat.eqb a b.

(** The Python values that reach the dispatcher's entry points. *)
#[local] Set Warnings "-register-all".
Inductive pyval : Type :=
| VNone
| VInt (z : Z)
| VStr (s : string)
| VDict (p : Payload)
| VReq (r : RequestInfo)
| VList (l : list pyval).

#[local] Set Warnings "register-all".

Definition isinstance_RequestInfo (v : pyval) : bool :=
  match v with VReq _ => true | _ => false end.

Definition isinstance_str (v : pyval) : bool :=
  match v with VStr _ => true | _ => false end.

Definition isinstance_int (v : pyval) : bool :=
  match v with VInt _ => true | _ => false end.

(** The elements of a list already checked to hold only [RequestInfo]s. *)
Fixpoint descriptors (l : list pyval) : list RequestInfo :=
  match l with
  | [] => []
  | VReq r :: l' => r :: descriptors l'
  | _ :: l' => descriptors l'
  end.

Record RequestPool : Type := {
  pool : ProcessPool;
  hostname : string;
  port : Z
}.

(** [RequestPool.__init__]

<<
    self.pool = ProcessPool(n_workers)
    self.hostname = hostname
    self.port = port
    if not isinstance(self.hostname, str): raise TypeError(...)
    if not isinstance(self.port, int): raise TypeError(...)
    if self.hostname == "": raise ValueError(...)
    if self.port < 1: raise ValueError(...)
>> *)
Definition RequestPool_init (n_workers : Z) (hostname port : pyval) : M RequestPool :=
  pool <- ProcessPool_init n_workers ;;
  match hostname with
  | VStr h =>
      match port with
      | VInt p =>
          if (h =? "")%string then raise (ValueError "Blank hostname given")
          else if p <? 1 then raise (ValueError "Invalid port number given")
          else ret {| pool := pool; hostname := h; port := p |}
      | _ => raise (TypeError "Port not given as int.")
      end
  | _ => raise (TypeError "Hostname not given as string")
  end.

(** The formatted string [f"{self.hostname}:{self.port}"]. *)
Definition host_port (self : RequestPool) : string :=
  (hostname self ++ ":" ++ Text.str_of_Z (port self))%string.

(** The [headers] dictionary of [request]. *)
Definition headers (self : RequestPool) : list (string * string) :=
  [ ("Connection", "keep-alive");
    ("Host", host_port self);
    ("User-Agent", "algosrestclient/0.1.0");
    ("Accept", "*/*") ].

(** The [post_headers] dictionary of [request]. *)
Definition post_headers (self : RequestPool) (encoded_args : string)
  : list (string * string) :=
  [ ("Content-Length", Text.str_of_nat (String.length encoded_args));
    ("Content-type", "application/json");
    ("Host", host_port self);
    ("User-Agent", "algosrestclient/0.1.0");
    ("Accept", "*/*");
    ("Connection", " keep-alive") ].

Definition ResultTuple : Type := string * PrimFloat.float * string.

(** The loop of [request] over the descriptors, [results] being the list
    built so far.

<<
    for req_info in req_infos:
        start = time.time()
        if req_info.data is None:
            conn.request(req_info.method, req_info.endpoint, headers=headers)
        else:
            encoded_args = bytes(json.dumps(req_info.data).encode("utf-8"))
            post_headers = {...}
            conn.request(req_info.method, req_info.endpoint,
                         body=encoded_args, headers=post_headers)
        response = conn.getresponse()
        response_data = response.read().decode("utf-8")
        end = time.time()
        results.append((response_data, end - start, req_info.endpoint))
>> *)
Fixpoint request_loop (self : RequestPool) (w : env) (conn : nat)
    (req_infos : list RequestInfo) (results : list ResultTuple)
  : M (list ResultTuple) :=
  match req_infos with
  | [] => ret results
  | req_info :: rest =>
      start <- time_time w ;;
      match data req_info with
      | None =>
          conn_request w conn (method req_info) (endpoint req_info)
                       None (headers self)
      | Some d =>
          let encoded_args := json_dumps d in
          conn_request w conn (method req_info) (endpoint req_info)
                       (Some encoded_args) (post_headers self encoded_args)
      end ;;
      response <- conn_getresponse w conn ;;
      raw <- response_read response ;;
      response_data <- bytes_decode raw ;;
      end_ <- time_time w ;;
      request_loop self w conn rest
        (results ++ [(response_data, PrimFloat.sub end_ start, endpoint req_info)])
  end.

(** [RequestPool.request] *)
Definition request (self : RequestPool) (w : env) (req_infos : pyval)
  : M (list ResultTuple) :=
  match req_infos with
  | VList l =>
      if forallb isinstance_RequestInfo l then
        conn <- HTTPConnection (hostname self) (port self) ;;
        results <- request_loop self w conn (descriptors l) [] ;;
        conn_close conn ;;
        ret results
      else raise (TypeError "Unsupported Type for Input Elements")
  | _ => raise (TypeError "Unsupported Type for Input List")
  end.

(** A dispatcher as an object: its attributes are the pool, the host
    name and the port. *)
Definition RequestPool_object : pyobject :=
  OInstance [ProcessPool_object; OData; OData].

(** What the bound method [self.request] computes when a worker calls
    it: [request] run from start in that process, with the worker's final
    state. *)
Definition request_job (self : RequestPool) (w : env) (req_infos : pyval)
  : result (list ResultTuple) * state :=
  request self w req_infos initial.

(** The bound method [self.request] as handed to the pool: pickling it
    pickles [self]. *)
Definition request_method (self : RequestPool)
  : Callable env pyval (result (list ResultTuple) * state) :=
  {| call := request_job self; as_object := OMethod RequestPool_object |}.

(** [future.result()] for a job of [request]: the exception set on the
    future, or what the job returned or raised. *)
Definition Future_result {X : Type} (f : Future (result X * state)) : result X :=
  match f with
  | Done (r, _) => r
  | Failed e => Raise e
  end.

(** [RequestPool.batch_request] *)
Definition batch_request (self : RequestPool) (ws : nat -> env)
    (req_infos : list pyval)
  : result (ResultIterator (result (list ResultTuple) * state)) :=
  ProcessPool_batch (pool self) ws (request_method self) req_infos.

(** [RequestPool.single_request]: the argument is wrapped in a list. *)
Definition single_request (self : RequestPool) (w : env) (req_info : pyval)
  : result (Future (result (list ResultTuple) * state)) :=
  ProcessPool_single (pool self) w (request_method self) (VList [req_info]).

(** [RequestPool.shutdown] *)
Definition shutdown (self : RequestPool) : RequestPool :=
  {| pool := ProcessPool_shutdown (pool self);
     hostname := hostname self; port := port self |}.

(** The request that the loop hands to the connection for a descriptor. *)
Definition wire_request (self : RequestPool) (d : RequestInfo) : http_request :=
  match data d with
  | None =>
      {| rq_method := method d; rq_url := endpoint d;
         rq_body := None; rq_headers := headers self |}
  | Some p =>
      {| rq_method := method d; rq_url := endpoint d;
         rq_body := Some (json_dumps p);
         rq_headers := post_headers self (json_dumps p) |}
  end.

(** Whether the [k]-th exchange, sending [rq], brings back a body that
    decodes, and the text it decodes to. *)
Definition answered (w : env) (k : nat) (rq : http_request) : option string :=
  match server w k rq with
  | Reply body => if Text.utf8_valid body then Some body else None
  | _ => None
  end.

(** The descriptor that the specification calls valid: a non-empty
    endpoint, and either [GET] without payload or [POST] with one. *)
Definition spec_valid_descriptor (r : RequestInfo) : bool :=
  negb (endpoint r =? "")%string
  && (((method r =? "GET")%string && match data r with None => true | Some _ => false end)
      || ((method r =? "POST")%string && match data r with None => false | Some _ => true end)).

End Embedding.

Arguments endpoint {Payload} r.
Arguments method {Payload} r.
Arguments data {Payload} r.
Arguments VNone {Payload}.
Arguments VInt {Payload} z.
Arguments VStr {Payload} s.
Arguments VDict {Payload} p.
Arguments VReq {Payload} r.
Arguments VList {Payload} l.
Arguments RequestInfo_init {Payload} endpoint method data.
Arguments RequestInfo_new {Payload} h endpoint method data.
Arguments deref {Payload} h a.
Arguments descriptors {Payload} l.
Arguments isinstance_RequestInfo {Payload} v.
Arguments isinstance_str {Payload} v.
Arguments isinstance_int {Payload} v.
Arguments RequestPool_init {Payload} n_workers hostname port.
Arguments request {Payload} json_dumps self w req_infos.
Arguments request_loop {Payload} json_dumps self w conn req_infos results.
Arguments request_job {Payload} json_dumps self w req_infos.
Arguments request_method {Payload} json_dumps self.
Arguments batch_request {Payload} json_dumps self ws req_infos.
Arguments single_request {Payload} json_dumps self w req_info.
Arguments wire_request {Payload} json_dumps self d.
Arguments spec_valid_descriptor {Payload} r.

(** ** Outcomes of a run *)

(** The exception in which the [k]-th exchange ends when the request sent
    is [rq], if it ends in one: the transport's error as raised, or the
    decoding error of a body that is not UTF-8. *)
Definition failure (w : env) (k : nat) (rq : http_request) : option exn :=
  match server w k rq with
  | SendError msg => Some (TransportError msg)
  | ResponseError msg => Some (TransportError msg)
  | ReadError msg => Some (TransportError msg)
  | Reply body => if Text.utf8_valid body then None else Some UnicodeDecodeError
  end.

(** The two checks at the head of [request]: the argument is a list and
    all its elements are [RequestInfo]s. *)
Definition passes_request_checks {Payload : Type} (v : pyval Payload) : bool :=
  match v with
  | VList l => forallb isinstance_RequestInfo l
  | _ => false
  end.

(** ** Header fields as HTTP reads them

    A field name is matched without regard to case, and the value of a
    field is what stands between the optional white space, spaces and
    tabs, that may precede and follow it. *)
Definition is_ows (c : ascii) : bool :=
  (Text.byte c =? 32) || (Text.byte c =? 9).

Fixpoint strip_left (v : string) : string :=
  match v with
  | EmptyString => EmptyString
  | String c v' => if is_ows c then strip_left v' else v
  end.

Fixpoint strip_right (v : string) : string :=
  match v with
  | EmptyString => EmptyString
  | String c v' =>
      match strip_right v' with
      | EmptyString => if is_ows c then EmptyString else String c EmptyString
      | String c' r => String c (String c' r)
      end
  end.

Definition field_value (v : string) : string := strip_right (strip_left v).

(** The value of the first field of that name among the headers handed to
    [conn.request]. *)
Fixpoint http_field (name : string) (hs : list (string * string)) : option string :=
  match hs with
  | [] => None
  | (k, v) :: hs' =>
      if (Text.upper k =? Text.upper name)%string then Some (field_value v)
      else http_field name hs'
  end.

(** * algos.io: reading standard input

    [src/algos/io.py]. The process is seen through the unread part of
    standard input, as the text that the stream delivers once decoded,
    whose lines end in a line feed, and the messages that [ReadStdIn] logs
    at level [CRITICAL]. A stream whose bytes do not decode makes the
    reading calls raise; that is outside this embedding, which therefore
    says what a read gives and not that it returns. *)

Record stdio : Type := {
  stdin : string;
  critical : list string
}.

Definition IO (A : Type) : Type := stdio -> result A * stdio.

Definition io_ret {A} (a : A) : IO A := fun st => (Ok a, st).

Definition io_raise {A} (e : exn) : IO A := fun st => (Raise e, st).

Definition io_bind {A B} (m : IO A) (k : A -> IO B) : IO B :=
  fun st =>
    match m st with
    | (Ok a, st') => k a st'
    | (Raise e, st') => (Raise e, st')
    end.

Declare Scope io_scope.
Delimit Scope io_scope with io.
Notation "x <- m ;; k" := (io_bind m (fun x => k))
  (at level 61, m at next level, right associativity) : io_scope.
Notation "m ;; k" := (io_bind m (fun _ => k))
  (at level 61, right associativity) : io_scope.

(** The line feed. *)
Definition LF : ascii := ascii_of_nat 10.

Definition nl : string := String LF EmptyString.

(** The first line of a text, with its line feed when it has one, and
    the text after it. *)
Fixpoint take_line (s : string) : string * string :=
  match s with
  | EmptyString => (EmptyString, EmptyString)
  | String c s' =>
      if Ascii.eqb c LF then (String c EmptyString, s')
      else let (l, r) := take_line s' in (String c l, r)
  end.

(** The lines of a text, each with its line feed, the last one possibly
    without. *)
Fixpoint keep_lines (s : string) : list string :=
  match s with
  | EmptyString => []
  | String c s' =>
      if Ascii.eqb c LF then String c EmptyString :: keep_lines s'
      else
        match keep_lines s' with
        | [] => [String c EmptyString]
        | l :: ls => String c l :: ls
        end
  end.

(** [s.split(sep)] for a separator of one character. *)
Fixpoint split_on (sep : ascii) (s : string) : list string :=
  match s with
  | EmptyString => [EmptyString]
  | String c s' =>
      if Ascii.eqb c sep then EmptyString :: split_on sep s'
      else
        match split_on sep s' with
        | [] => [String c EmptyString]
        | x :: xs => String c x :: xs
        end
  end.

(** How often a character occurs in a text. *)
Fixpoint occurrences (c : ascii) (s : string) : nat :=
  match s with
  | EmptyString => O
  | String c' s' => if Ascii.eqb c' c then S (occurrences c s') else occurrences c s'
  end.

(** The text left after [k] lines have been read. *)
Fixpoint drop_lines (k : nat) (s : string) : string :=
  match k with
  | O => s
  | S k' => drop_lines k' (snd (take_line s))
  end.

(** Whether a text is one full line: it ends in its only line feed. *)
Fixpoint is_line (s : string) : bool :=
  match s with
  | EmptyString => false
  | String c s' =>
      if Ascii.eqb c LF then (s' =? "")%string else is_line s'
  end.

(** [sys.stdin.readline()] *)
Definition readline : IO string :=
  fun st =>
    (Ok (fst (take_line (stdin st))),
     {| stdin := snd (take_line (stdin st)); critical := critical st |}).

(** [sys.stdin.readlines()] *)
Definition readlines : IO (list string) :=
  fun st => (Ok (keep_lines (stdin st)), {| stdin := ""; critical := critical st |}).

(** [self.logger.critical(msg)] *)
Definition logger_critical (msg : string) : IO unit :=
  fun st => (Ok tt, {| stdin := stdin st; critical := critical st ++ [msg] |}).

(** The argument of [convert_anystr]. *)
Inductive anystr : Type :=
| AStr (s : string)
| ABytes (b : string).

(** [convert_anystr]: a [str] is returned as it is, [bytes] are
    decoded. *)
Definition convert_anystr (any_str : anystr) : result string :=
  match any_str with
  | AStr s => Ok s
  | ABytes b => if Text.utf8_valid b then Ok b else Raise UnicodeDecodeError
  end.

Definition io_lift {A} (r : result A) : IO A := fun st => (r, st).

Section ReadStdIn.

Local Open Scope io_scope.

(** The conversions of the standard library that [ReadStdIn] applies:
    [int] and [float] on a string give a value or raise [ValueError] with
    a message; [str.split()] cuts a line at white space; [repr] prints an
    element. *)
Variable Float : Type.
Variable py_int : string -> Z + string.
Variable py_float : string -> Float + string.
Variable str_split : string -> list string.
Variable repr_float : Float -> string.
Variable repr_str : string -> string.

(** An element of the list that [array] returns. *)
Inductive elem : Type :=
| EInt (z : Z)
| EFloat (f : Float)
| EStr (s : string).

Definition is_EInt (x : elem) : bool :=
  match x with EInt _ => true | _ => false end.

(** [list(map(conv, words))]: the first word that [conv] refuses raises. *)
Fixpoint map_conv {A : Type} (conv : string -> A + string) (inj : A -> elem)
    (words : list string) : list elem + string :=
  match words with
  | [] => inl []
  | x :: words' =>
      match conv x with
      | inr err => inr err
      | inl a =>
          match map_conv conv inj words' with
          | inr err => inr err
          | inl r => inl (inj a :: r)
          end
      end
  end.

(** [ReadStdIn.integer] *)
Definition ReadStdIn_integer : IO Z :=
  stdin_input_str <- readline ;;
  match py_int stdin_input_str with
  | inl value => io_ret value
  | inr err =>
      text <- io_lift (convert_anystr (AStr stdin_input_str)) ;;
      logger_critical ("integer - " ++ err ++ nl ++ "Input: " ++ text)%string ;;
      io_raise (ValueError err)
  end.

(** The conversion of the words of a line that [array] makes for a
    supported [typ]. *)
Definition convert_words (typ : string) (words : list string) : list elem + string :=
  if (typ =? "int")%string then map_conv py_int EInt words
  else if (typ =? "float")%string then map_conv py_float EFloat words
  else inl (map EStr words).

(** [ReadStdIn.array] *)
Definition ReadStdIn_array (typ : string) : IO (list elem) :=
  if (typ =? "int")%string || (typ =? "float")%string || (typ =? "str")%string
  then
    stdin_input_str <- readline ;;
    if (stdin_input_str =? "")%string then io_raise (ValueError "Empty input")
    else
      match convert_words typ (str_split stdin_input_str) with
      | inl array => io_ret array
      | inr err =>
          text <- io_lift (convert_anystr (AStr stdin_input_str)) ;;
          logger_critical ("array - " ++ err ++ nl ++ "Input: " ++ text)%string ;;
          io_raise (ValueError err)
      end
  else
    (logger_critical ("array - Unsupported Type" ++ nl ++ "Input " ++ typ)%string ;;
     io_raise (ValueError "Unsupported Type")).

(** [repr(row)] *)
Definition repr_elem (x : elem) : string :=
  match x with
  | EInt z => Text.str_of_Z z
  | EFloat f => repr_float f
  | EStr s => repr_str s
  end.

Definition repr_list (row : list elem) : string :=
  ("[" ++ String.concat ", " (map repr_elem row) ++ "]")%string.

(** The loop of [matrix]: [k] rows are still to be read, [M] holds the
    rows read so far. *)
Fixpoint matrix_rows (n : Z) (k : nat) (M : list (list elem))
  : IO (list (list elem)) :=
  match k with
  | O => io_ret M
  | S k' =>
      row <- ReadStdIn_array "int" ;;
      if negb (Z.of_nat (length row) =? n) then
        (logger_critical ("matrix - input row not of length " ++ Text.str_of_Z n
                          ++ nl ++ "Input: " ++ repr_list row)%string ;;
         io_raise (ValueError "Row lengths not equal"))
      else matrix_rows n k' (M ++ [row])
  end.

(** [ReadStdIn.matrix] *)
Definition ReadStdIn_matrix (n : Z) : IO (list (list elem)) :=
  if n <? 1 then
    (logger_critical ("matrix - invalid n specified: " ++ Text.str_of_Z n)%string ;;
     io_raise (ValueError "Invalid value for n"))
  else matrix_rows n (Z.to_nat n) [].

(** [ReadStdIn.string] *)
Definition ReadStdIn_string : IO (list string) :=
  lines <- readlines ;;
  io_ret (split_on LF (String.concat "" lines)).

End ReadStdIn.

Arguments EInt {Float} z.
Arguments EFloat {Float} f.
Arguments EStr {Float} s.
Arguments is_EInt {Float} x.
Arguments map_conv {Float A} conv inj words.
Arguments convert_words {Float} py_int py_float typ words.
Arguments ReadStdIn_array {Float} py_int py_float str_split typ.
Arguments repr_elem {Float} repr_float repr_str x.
Arguments repr_list {Float} repr_float repr_str row.
Arguments matrix_rows {Float} py_int py_float str_split repr_float repr_str n k M.
Arguments ReadStdIn_matrix {Float} py_int py_float str_split repr_float repr_str n.

(** ** Sample values

    For closed examples a payload is given by the text [json.dumps]
    produces for it. *)
Definition json_text (p : string) : string := p.

Definition dq : string := String (ascii_of_nat 34) EmptyString.

(** [{"hello": "world"}] *)
Definition hello_world : string :=
  ("{" ++ dq ++ "hello" ++ dq ++ ": " ++ dq ++ "world" ++ dq ++ "}")%string.

(** [{"status": "okay"}] *)
Definition status_okay : string :=
  ("{" ++ dq ++ "status" ++ dq ++ ": " ++ dq ++ "okay" ++ dq ++ "}")%string.

(** [RequestInfo(endpoint="/", method="GET")] *)
Definition root_req : RequestInfo string :=
  {| endpoint := "/"; method := "GET"; data := None |}.

(** [RequestInfo(endpoint="/", method="POST", data={"hello": "world"})] *)
Definition post_req : RequestInfo string :=
  {| endpoint := "/"; method := "POST"; data := Some hello_world |}.

(** A dispatcher for [localhost:8081] with a running pool of two
    workers. *)
Definition localhost : RequestPool :=
  {| pool := {| n_workers := 2; executor := {| max_workers := 2; shut := false |} |};
     hostname := "localhost"; port := 8081 |}.

(** A clock that shows the number of readings made so far, in seconds. *)
Fixpoint seconds (k : nat) : PrimFloat.float :=
  match k with
  | O => 0%float
  | S k' => PrimFloat.add (seconds k') 1%float
  end.

(** A server that answers every request with [{"status": "okay"}], seen
    through a clock that advances by one second per reading. *)
Definition mock_env : env :=
  {| now := seconds;
     server := fun _ _ => Reply status_okay |}.


(** The same server seen through a clock whose two readings are one
    second and two to the minus sixty apart. *)
Definition tiny_start_env : env :=
  {| now := fun k => match k with O => 0x1p-60%float | _ => 1%float end;
     server := fun _ _ => Reply status_okay |}.

(** The function the pool's unit tests submit, a module-level function. *)
Definition square : Callable unit Z Z :=
  {| call := fun _ x => x * x; as_object := OFunction |}.

(** A pool of three workers, as the unit tests create it. *)
Definition three_workers : ProcessPool :=
  {| n_workers := 3; executor := {| max_workers := 3; shut := false |} |}.

(** A server that cannot be reached. *)
Definition refused_env : env :=
  {| now := seconds;
     server := fun _ _ => SendError "Connection refused" |}.

(** A server whose first answer arrives and whose second is cut short
    while it is read. *)
Definition flaky_env : env :=
  {| now := seconds;
     server := fun k _ =>
       match k with
       | O => Reply status_okay
       | _ => ReadError "IncompleteRead"
       end |}.

(** A dispatcher whose host name the constructor accepts and
    [http.client] refuses. *)
Definition local_host : RequestPool :=
  {| pool := {| n_workers := 1; executor := {| max_workers := 1; shut := false |} |};
     hostname := "local host"; port := 8081 |}.

(** Stand-ins for the library conversions in closed examples: they agree
    with [int] on non-empty strings of ASCII digits and with [str.split()]
    on words separated by blanks and line feeds; there are no floats. *)
Fixpoint sample_digits (acc : Z) (s : string) : option Z :=
  match s with
  | EmptyString => Some acc
  | String c s' =>
      if Text.between 48 57 c then sample_digits (10 * acc + (Text.byte c - 48)) s'
      else None
  end.

Definition sample_int (s : string) : Z + string :=
  match s with
  | EmptyString => inr "invalid literal for int() with base 10"
  | String _ _ =>
      match sample_digits 0 s with
      | Some z => inl z
      | None => inr "invalid literal for int() with base 10"
      end
  end.

Fixpoint sample_split_from (cur : string) (s : string) : list string :=
  match s with
  | EmptyString => if (cur =? "")%string then [] else [cur]
  | String c s' =>
      if Ascii.eqb c " " || Ascii.eqb c LF then
        (if (cur =? "")%string then sample_split_from "" s'
         else cur :: sample_split_from "" s')
      else sample_split_from (cur ++ String c "")%string s'
  end.

Definition sample_split (s : string) : list string := sample_split_from "" s.

Definition sample_float (s : string) : unit + string :=
  inr "could not convert string to float".

(** Two lines, [1 2] and [3 4]. *)
Definition two_by_two : stdio :=
  {| stdin := ("1 2" ++ nl ++ "3 4" ++ nl)%string; critical := [] |}.

(** * Properties *)

(** ** [chunks] *)

Section ChunksFacts.

Context {A : Type}.

Lemma ceil_div_spec (a b : Z) :
  0 < b -> b * (ceil_div a b - 1) < a <= b * ceil_div a b.
Proof.
  intros Hb. unfold ceil_div.
  pose proof (Z.div_mod (a + b - 1) b ltac:(lia)) as Hdm.
  pose proof (Z.mod_pos_bound (a + b - 1) b Hb) as Hm.
  nia.
Qed.

Lemma range_len_chunks (L n : Z) :
  0 <= L -> 0 < n -> PyList.range_len 0 L n = ceil_div L n.
Proof.
  intros HL Hn. unfold PyList.range_len, ceil_div.
  assert (Hs : (0 <? n) = true) by (apply Z.ltb_lt; lia).
  rewrite Hs. simpl.
  destruct (Z.ltb_spec 0 L) as [Hpos | Hzero].
  - replace (L + n - 1) with (L - 0 - 1 + 1 * n) by lia.
    rewrite Z.div_add by lia. reflexivity.
  - assert (L = 0) by lia. subst L.
    assert (Hn' : (n <? 0) = false) by (apply Z.ltb_ge; lia).
    rewrite Hn'. simpl. symmetry. apply Z.div_small. lia.
Qed.

Lemma firstn_add (a b : nat) (l : list A) :
  firstn (a + b) l = firstn a l ++ firstn b (skipn a l).
Proof.
  revert l. induction a as [| a IH]; intros l; [reflexivity |].
  destruct l as [| x l]; simpl.
  - now rewrite firstn_nil.
  - now rewrite IH.
Qed.

Lemma firstn_min_length (a : nat) (l : list A) :
  firstn (Nat.min a (length l)) l = firstn a l.
Proof.
  destruct (Nat.le_ge_cases a (length l)) as [H | H].
  - now rewrite Nat.min_l.
  - rewrite Nat.min_r by assumption.
    now rewrite firstn_all, firstn_all2.
Qed.

Lemma clamp_index_nonneg (len i : Z) :
  0 <= len -> 0 <= i -> PyList.clamp_index len i = Z.min i len.
Proof.
  intros Hlen Hi. unfold PyList.clamp_index.
  destruct (Z.ltb_spec i 0); [lia |].
  destruct (Z.ltb_spec i 0); [lia |].
  destruct (Z.ltb_spec len i); lia.
Qed.

(** The slice taken by the [k]-th iteration, in terms of [firstn] and
    [skipn]. *)
Lemma slice_chunk (xs : list A) (k : nat) (n : Z) :
  0 < n ->
  Z.of_nat k * n <= Z.of_nat (length xs) ->
  PyList.slice xs (0 + Z.of_nat k * n) (0 + Z.of_nat k * n + n)
  = firstn (Z.to_nat n) (skipn (k * Z.to_nat n) xs).
Proof.
  intros Hn Hk. unfold PyList.slice.
  rewrite !clamp_index_nonneg by nia.
  replace (Z.to_nat (Z.min (0 + Z.of_nat k * n) (Z.of_nat (length xs))))
    with (k * Z.to_nat n)%nat by nia.
  rewrite <- (firstn_min_length (Z.to_nat n)).
  f_equal. rewrite length_skipn. nia.
Qed.

Lemma concat_chunks_prefix (xs : list A) (n : Z) (m : nat) :
  0 < n ->
  concat (map (fun k => firstn (Z.to_nat n) (skipn (k * Z.to_nat n) xs)) (seq 0 m))
  = firstn (m * Z.to_nat n) xs.
Proof.
  intros Hn. induction m as [| m IH]; [reflexivity |].
  rewrite seq_S, map_app, concat_app, IH. simpl.
  rewrite app_nil_r, <- firstn_add. f_equal. lia.
Qed.

(** With a positive chunk size the generator yields the slices
    [xs[k*n : k*n+n]] for [k = 0 .. ceil(L/n) - 1]. *)
Lemma chunks_pos (xs : list A) (n : Z) :
  0 < n ->
  chunks xs n
  = Ok (map (fun k => firstn (Z.to_nat n) (skipn (k * Z.to_nat n) xs))
            (seq 0 (Z.to_nat (ceil_div (Z.of_nat (length xs)) n)))).
Proof.
  intros Hn. unfold chunks, PyList.range.
  destruct (Z.eqb_spec n 0) as [-> | _]; [lia |].
  rewrite range_len_chunks by lia.
  pose proof (ceil_div_spec (Z.of_nat (length xs)) n Hn) as Hc.
  f_equal. rewrite map_map. apply map_ext_in.
  intros k Hk. apply in_seq in Hk.
  apply slice_chunk; nia.
Qed.

(** C1. For every list [xs] of length [L] and every [n >= 1],
    [chunks xs n] produces exactly [ceil(L/n)] chunks; the [k]-th chunk is
    the contiguous run of [xs] that starts at position [k*n]; every chunk
    but the last has length [n], the last one has between [1] and [n]
    elements; and the chunks concatenated in order give back [xs]. *)
Theorem chunks_partition (xs : list A) (n : Z) :
  1 <= n ->
  exists cs : list (list A),
    chunks xs n = Ok cs
    /\ Z.of_nat (length cs) = ceil_div (Z.of_nat (length xs)) n
    /\ (forall k, (k < length cs)%nat ->
          nth k cs [] = firstn (Z.to_nat n) (skipn (k * Z.to_nat n) xs))
    /\ (forall k, (S k < length cs)%nat -> Z.of_nat (length (nth k cs [])) = n)
    /\ (forall k, S k = length cs -> 1 <= Z.of_nat (length (nth k cs [])) <= n)
    /\ concat cs = xs.
Proof.
  intros Hn. assert (Hpos : 0 < n) by lia.
  pose proof (ceil_div_spec (Z.of_nat (length xs)) n Hpos) as Hc.
  set (c := ceil_div (Z.of_nat (length xs)) n) in *.
  assert (Hc0 : 0 <= c) by nia.
  set (chunk := fun k => firstn (Z.to_nat n) (skipn (k * Z.to_nat n) xs)).
  exists (map chunk (seq 0 (Z.to_nat c))).
  assert (Hnth : forall k, (k < Z.to_nat c)%nat ->
                   nth k (map chunk (seq 0 (Z.to_nat c))) [] = chunk k).
  { intros k Hk.
    rewrite (nth_indep _ [] (chunk 0%nat)) by (rewrite length_map, length_seq; exact Hk).
    rewrite map_nth, seq_nth by exact Hk. reflexivity. }
  assert (Hlen : forall k, length (chunk k)
                   = Nat.min (Z.to_nat n) (length xs - k * Z.to_nat n)).
  { intros k. unfold chunk. now rewrite length_firstn, length_skipn. }
  rewrite length_map, length_seq.
  repeat split.
  - rewrite chunks_pos by exact Hpos. reflexivity.
  - lia.
  - intros k Hk. now apply Hnth.
  - intros k Hk. rewrite Hnth, Hlen by lia. nia.
  - rewrite Hnth, Hlen by lia. nia.
  - rewrite Hnth, Hlen by lia. nia.
  - unfold chunk. rewrite concat_chunks_prefix by exact Hpos.
    apply firstn_all2. nia.
Qed.

(** C10 (as amended). A chunk size of zero makes the loop's [range] raise
    [ValueError]; a negative chunk size is not rejected: the [range] is
    empty and no chunk at all is produced. *)
Theorem chunks_nonpositive (xs : list A) (n : Z) :
  n <= 0 ->
  chunks xs n
  = if n =? 0 then Raise (ValueError "range() arg 3 must not be zero") else Ok [].
Proof.
  intros Hn. unfold chunks, PyList.range, PyList.range_len.
  destruct (Z.eqb_spec n 0); [reflexivity |].
  destruct (Z.ltb_spec 0 n); [lia |].
  destruct (Z.ltb_spec n 0); [| lia].
  destruct (Z.ltb_spec (Z.of_nat (length xs)) 0); [lia |].
  reflexivity.
Qed.

End ChunksFacts.

(** The two scenarios of the unit tests. *)
Example chunks_abc_2 : chunks ["a"; "b"; "c"] 2 = Ok [["a"; "b"]; ["c"]].
Proof. reflexivity. Qed.

Example chunks_abc_1 : chunks ["a"; "b"; "c"] 1 = Ok [["a"]; ["b"]; ["c"]].
Proof. reflexivity. Qed.

Lemma chunks_partition_witness :
  1 <= 2 /\
  exists cs : list (list string),
    chunks ["a"; "b"; "c"] 2 = Ok cs
    /\ Z.of_nat (length cs) = ceil_div (Z.of_nat (length ["a"; "b"; "c"])) 2
    /\ (forall k, (k < length cs)%nat ->
          nth k cs [] = firstn (Z.to_nat 2) (skipn (k * Z.to_nat 2) ["a"; "b"; "c"]))
    /\ (forall k, (S k < length cs)%nat -> Z.of_nat (length (nth k cs [])) = 2)
    /\ (forall k, S k = length cs -> 1 <= Z.of_nat (length (nth k cs [])) <= 2)
    /\ concat cs = ["a"; "b"; "c"].
Proof.
  split; [lia | apply (chunks_partition ["a"; "b"; "c"] 2); lia].
Defined.

(** A negative chunk size is accepted: consuming the generator ends
    normally and the single descriptor is in no chunk. *)
Lemma chunks_negative_not_rejected :
  chunks ["a"] (-1) = Ok [] /\ is_ok (chunks ["a"] (-1)) = true.
Proof. split; reflexivity. Qed.

Lemma chunks_nonpositive_witness :
  -1 <= 0 /\
  chunks ["a"] (-1)
  = if -1 =? 0 then Raise (ValueError "range() arg 3 must not be zero") else Ok [].
Proof.
  split; [lia | apply (chunks_nonpositive ["a"] (-1)); lia].
Defined.

(** ** The request loop *)

Section Properties.

Context {Payload : Type} (json_dumps : Payload -> string).

Lemma descriptors_map_VReq (ds : list (RequestInfo Payload)) :
  descriptors (map VReq ds) = ds.
Proof. induction ds as [| d ds IH]; simpl; congruence. Qed.

Lemma forallb_isinstance_map_VReq (ds : list (RequestInfo Payload)) :
  forallb isinstance_RequestInfo (map VReq ds) = true.
Proof. induction ds as [| d ds IH]; simpl; auto. Qed.

(** One turn of the loop when the exchange is answered by a body that
    decodes. *)
Lemma request_loop_cons (self : RequestPool) (w : env) (conn : nat)
    (d : RequestInfo Payload) (ds : list (RequestInfo Payload))
    (acc : list ResultTuple) (s : state) (text : string) :
  answered w (exchanges s) (wire_request json_dumps self d) = Some text ->
  request_loop json_dumps self w conn (d :: ds) acc s
  = request_loop json_dumps self w conn ds
      (acc ++ [(text, PrimFloat.sub (now w (S (ticks s))) (now w (ticks s)),
                endpoint d)])
      {| ticks := S (S (ticks s)); conns := conns s;
         exchanges := S (exchanges s); pending := None;
         log := log s
                ++ exchange_events w conn (ticks s)
                     (wire_request json_dumps self d) text |}.
Proof.
  unfold answered, wire_request, exchange_events. intros Hans.
  cbn [request_loop]. unfold bind at 1. cbn [time_time].
  destruct (data d) as [p |];
    unfold bind at 1; unfold conn_request; cbn [exchanges log];
    (destruct (server w (exchanges s) _) as [msg | msg | msg | body] eqn:Hsrv;
       try discriminate Hans);
    unfold bind at 1; unfold conn_getresponse; cbn [pending exchanges];
    rewrite Hsrv;
    unfold bind at 1; unfold response_read; cbn [content of_conn];
    unfold bind at 1; unfold bytes_decode;
    (destruct (Text.utf8_valid body); [| discriminate Hans]);
    injection Hans as <-;
    unfold ret at 1; unfold bind at 1;
    cbn [time_time ticks conns exchanges pending log];
    rewrite <- !app_assoc; reflexivity.
Qed.

Lemma connection_calls_exchange (w : env) (conn t : nat) (rq : http_request)
    (body : string) :
  connection_calls (exchange_events w conn t rq body) = [Sent conn rq].
Proof. reflexivity. Qed.

(** The loop over a list whose exchanges are all answered. *)
Lemma request_loop_answered (self : RequestPool) (w : env) (conn : nat)
    (ds : list (RequestInfo Payload)) :
  forall (acc : list ResultTuple) (s : state),
    (forall i d, nth_error ds i = Some d ->
       answered w (exchanges s + i) (wire_request json_dumps self d) <> None) ->
    exists (rs : list ResultTuple) (blocks : list (list event)) (s' : state),
      request_loop json_dumps self w conn ds acc s = (Ok (acc ++ rs), s')
      /\ length rs = length ds
      /\ length blocks = length ds
      /\ (forall i d, nth_error ds i = Some d ->
            exists text,
              answered w (exchanges s + i) (wire_request json_dumps self d) = Some text
              /\ nth_error rs i
                 = Some (text,
                         PrimFloat.sub (now w (S (ticks s + 2 * i)))
                                       (now w (ticks s + 2 * i)),
                         endpoint d)
              /\ nth_error blocks i
                 = Some (exchange_events w conn (ticks s + 2 * i)
                           (wire_request json_dumps self d) text))
      /\ log s' = log s ++ concat blocks
      /\ connection_calls (concat blocks)
         = map (fun d => Sent conn (wire_request json_dumps self d)) ds
      /\ conns s' = conns s.
Proof.
  induction ds as [| d ds IH]; intros acc s Hans.
  - exists [], [], s. cbn. rewrite !app_nil_r.
    split; [reflexivity |]. split; [reflexivity |]. split; [reflexivity |].
    split; [intros [| i] d0 H; discriminate H |].
    split; [reflexivity |]. split; reflexivity.
  - destruct (answered w (exchanges s) (wire_request json_dumps self d))
      as [text |] eqn:H0.
    2:{ exfalso. apply (Hans 0%nat d eq_refl). now rewrite Nat.add_0_r. }
    rewrite (request_loop_cons self w conn d ds acc s text H0).
    set (b := exchange_events w conn (ticks s) (wire_request json_dumps self d) text).
    set (s1 := {| ticks := S (S (ticks s)); conns := conns s;
                  exchanges := S (exchanges s); pending := None;
                  log := log s ++ b |}).
    set (t := (text, PrimFloat.sub (now w (S (ticks s))) (now w (ticks s)),
               endpoint d)).
    destruct (IH (acc ++ [t]) s1)
      as (rs & blocks & s' & Hrun & Hlen & Hlenb & Hnth & Hlog & Hcalls & Hconns).
    { intros i d0 Hi. cbn [s1 exchanges].
      replace (S (exchanges s) + i)%nat with (exchanges s + S i)%nat by lia.
      now apply (Hans (S i)). }
    exists (t :: rs), (b :: blocks), s'.
    split; [rewrite Hrun, <- app_assoc; reflexivity |].
    split; [cbn; now rewrite Hlen |].
    split; [cbn; now rewrite Hlenb |].
    split; [| split; [| split]].
    + intros [| i] d0 Hi.
      * injection Hi as <-. exists text.
        change (2 * 0)%nat with 0%nat. rewrite !Nat.add_0_r.
        split; [exact H0 |]. split; reflexivity.
      * destruct (Hnth i d0 Hi) as (text' & Ha & Hr & Hb).
        exists text'. cbn [s1 exchanges ticks] in Ha, Hr, Hb.
        replace (exchanges s + S i)%nat with (S (exchanges s) + i)%nat by lia.
        replace (ticks s + 2 * S i)%nat with (S (S (ticks s)) + 2 * i)%nat by lia.
        split; [exact Ha |]. split; [exact Hr | exact Hb].
    + rewrite Hlog. cbn [s1 log concat]. now rewrite <- app_assoc.
    + cbn [concat]. unfold connection_calls in *. rewrite filter_app.
      fold (connection_calls b). unfold b.
      rewrite connection_calls_exchange, Hcalls. reflexivity.
    + rewrite Hconns. reflexivity.
Qed.

(** [request] on a list of descriptors, in terms of its loop. *)
Lemma request_by_loop (self : RequestPool) (w : env)
    (ds : list (RequestInfo Payload)) (s : state) :
  valid_host (hostname self) = true ->
  request json_dumps self w (VList (map VReq ds)) s
  = match request_loop json_dumps self w (conns s) ds []
            {| ticks := ticks s; conns := S (conns s); exchanges := exchanges s;
               pending := pending s;
               log := log s ++ [Opened (conns s) (hostname self) (port self)] |}
    with
    | (Ok rs, s1) =>
        (Ok rs,
         {| ticks := ticks s1; conns := conns s1; exchanges := exchanges s1;
            pending := pending s1; log := log s1 ++ [Closed (conns s)] |})
    | (Raise e, s1) => (Raise e, s1)
    end.
Proof.
  intros Hhost. unfold request.
  rewrite forallb_isinstance_map_VReq, descriptors_map_VReq.
  unfold bind, HTTPConnection. rewrite Hhost.
  destruct (request_loop json_dumps self w (conns s) ds [] _) as [[rs | e] s1];
    reflexivity.
Qed.

(** [request] on a list of descriptors whose exchanges are all answered:
    the results, and the calls made. *)
Lemma request_answered (self : RequestPool) (w : env)
    (ds : list (RequestInfo Payload)) (s : state) :
  valid_host (hostname self) = true ->
  (forall i d, nth_error ds i = Some d ->
     answered w (exchanges s + i) (wire_request json_dumps self d) <> None) ->
  exists (rs : list ResultTuple) (blocks : list (list event)) (s' : state),
    request json_dumps self w (VList (map VReq ds)) s = (Ok rs, s')
    /\ length rs = length ds
    /\ length blocks = length ds
    /\ (forall i d, nth_error ds i = Some d ->
          exists text,
            answered w (exchanges s + i) (wire_request json_dumps self d) = Some text
            /\ nth_error rs i
               = Some (text,
                       PrimFloat.sub (now w (S (ticks s + 2 * i)))
                                     (now w (ticks s + 2 * i)),
                       endpoint d)
            /\ nth_error blocks i
               = Some (exchange_events w (conns s) (ticks s + 2 * i)
                         (wire_request json_dumps self d) text))
    /\ log s' = log s
                ++ [Opened (conns s) (hostname self) (port self)]
                ++ concat blocks
                ++ [Closed (conns s)]
    /\ connection_calls (concat blocks)
       = map (fun d => Sent (conns s) (wire_request json_dumps self d)) ds.
Proof.
  intros Hhost Hans. rewrite (request_by_loop self w ds s Hhost).
  set (s0 := {| ticks := ticks s; conns := S (conns s); exchanges := exchanges s;
                pending := pending s;
                log := log s ++ [Opened (conns s) (hostname self) (port self)] |}).
  destruct (request_loop_answered self w (conns s) ds [] s0 Hans)
    as (rs & blocks & s1 & Hrun & Hlen & Hlenb & Hnth & Hlog & Hcalls & _).
  rewrite Hrun. cbn [app].
  exists rs, blocks. eexists. split; [reflexivity |].
  split; [exact Hlen |]. split; [exact Hlenb |].
  split; [exact Hnth |]. split; [| exact Hcalls].
  cbn [log]. rewrite Hlog. cbn [s0 log]. now rewrite <- !app_assoc.
Qed.

(** One turn of the loop when the exchange is not answered: the
    exception leaves the loop. *)
Lemma request_loop_unanswered (self : RequestPool) (w : env) (conn : nat)
    (d : RequestInfo Payload) (ds : list (RequestInfo Payload))
    (acc : list ResultTuple) (s : state) :
  answered w (exchanges s) (wire_request json_dumps self d) = None ->
  exists (e : exn) (s' : state),
    request_loop json_dumps self w conn (d :: ds) acc s = (Raise e, s').
Proof.
  unfold answered, wire_request. intros Hans.
  cbn [request_loop]. unfold bind at 1. cbn [time_time].
  destruct (data d) as [p |];
    unfold bind at 1; unfold conn_request; cbn [exchanges log];
    (destruct (server w (exchanges s) _) as [msg | msg | msg | body] eqn:Hsrv;
       [ do 2 eexists; reflexivity | | | ]);
    unfold bind at 1; unfold conn_getresponse; cbn [pending exchanges];
    rewrite Hsrv;
    try (do 2 eexists; reflexivity);
    unfold bind at 1; unfold response_read; cbn [content of_conn];
    try (do 2 eexists; reflexivity);
    unfold bind at 1; unfold bytes_decode;
    (destruct (Text.utf8_valid body); [discriminate Hans |]);
    do 2 eexists; reflexivity.
Qed.

Lemma request_loop_ok_answered (self : RequestPool) (w : env) (conn : nat)
    (ds : list (RequestInfo Payload)) :
  forall (acc : list ResultTuple) (s : state),
    is_ok (fst (request_loop json_dumps self w conn ds acc s)) = true ->
    forall i d, nth_error ds i = Some d ->
      answered w (exchanges s + i) (wire_request json_dumps self d) <> None.
Proof.
  induction ds as [| d ds IH]; intros acc s Hok i d0 Hi.
  - destruct i; discriminate Hi.
  - destruct (answered w (exchanges s) (wire_request json_dumps self d))
      as [text |] eqn:H0.
    + rewrite (request_loop_cons self w conn d ds acc s text H0) in Hok.
      destruct i as [| i].
      * injection Hi as <-. rewrite Nat.add_0_r, H0. discriminate.
      * specialize (IH _ _ Hok i d0 Hi). cbn [exchanges] in IH.
        now replace (exchanges s + S i)%nat with (S (exchanges s) + i)%nat by lia.
    + destruct (request_loop_unanswered self w conn d ds acc s H0) as (e & s' & Hr).
      rewrite Hr in Hok. discriminate Hok.
Qed.

(** With a host name that the connection accepts, [request] returns
    exactly when every exchange is answered. *)
Lemma request_returns_iff_answered (self : RequestPool) (w : env)
    (ds : list (RequestInfo Payload)) (s : state) :
  valid_host (hostname self) = true ->
  is_ok (fst (request json_dumps self w (VList (map VReq ds)) s)) = true
  <-> (forall i d, nth_error ds i = Some d ->
         answered w (exchanges s + i) (wire_request json_dumps self d) <> None).
Proof.
  intros Hhost. split.
  - rewrite (request_by_loop self w ds s Hhost).
    intros Hok i d Hi.
    match type of Hok with
    | context [request_loop json_dumps self w ?c ds [] ?s0] =>
        pose proof (request_loop_ok_answered self w c ds [] s0) as Hloop;
        destruct (request_loop json_dumps self w c ds [] s0) as [[rs | e] s1]
    end.
    + exact (Hloop eq_refl i d Hi).
    + discriminate Hok.
  - intros Hans.
    destruct (request_answered self w ds s Hhost Hans) as (rs & bl & s' & Hrun & _).
    now rewrite Hrun.
Qed.


(** C4 (as amended). A call of [request] on a dispatcher whose host name
    the connection accepts and a list of descriptors whose exchanges are
    all answered creates exactly one connection, issues on it the requests
    of the list, in order and no other, and calls [close] on it exactly
    once, after the last exchange. For the empty list the connection is
    created and closed with no call in between, and the result is
    empty. *)
Theorem request_connection_lifecycle (self : RequestPool) (w : env)
    (ds : list (RequestInfo Payload)) (s : state) :
  valid_host (hostname self) = true ->
  (forall i d, nth_error ds i = Some d ->
     answered w (exchanges s + i) (wire_request json_dumps self d) <> None) ->
  exists (rs : list ResultTuple) (calls : list event) (s' : state),
    request json_dumps self w (VList (map VReq ds)) s = (Ok rs, s')
    /\ length rs = length ds
    /\ log s' = log s ++ calls
    /\ connection_calls calls
       = [Opened (conns s) (hostname self) (port self)]
         ++ map (fun d => Sent (conns s) (wire_request json_dumps self d)) ds
         ++ [Closed (conns s)]
    /\ (ds = [] ->
        rs = []
        /\ calls = [Opened (conns s) (hostname self) (port self);
                    Closed (conns s)]).
Proof.
  intros Hhost Hans.
  destruct (request_answered self w ds s Hhost Hans)
    as (rs & blocks & s' & Hrun & Hlen & Hlenb & Hnth & Hlog & Hcalls).
  exists rs,
    ([Opened (conns s) (hostname self) (port self)] ++ concat blocks
     ++ [Closed (conns s)]), s'.
  split; [exact Hrun |]. split; [exact Hlen |]. split; [exact Hlog |]. split.
  - unfold connection_calls in *. rewrite !filter_app, Hcalls. reflexivity.
  - intros ->. split; [now destruct rs |].
    destruct blocks as [| b blocks]; [reflexivity | discriminate Hlenb].
Qed.

(** ** The worker pool *)


(** C9 (as amended). On a pool that has been shut down, [single] raises
    the scheduling error, and so does [batch] for any input with at least
    one element; [batch] on the empty input submits nothing and returns an
    empty sequence of results without raising. *)
Theorem no_scheduling_after_shutdown {W A B : Type} (p : ProcessPool)
    (w : W) (ws : nat -> W) (func : Callable W A B) (arg : A) (rest : list A) :
  ProcessPool_single (ProcessPool_shutdown p) w func arg
  = Raise (RuntimeError "cannot schedule new futures after shutdown")
  /\ ProcessPool_batch (ProcessPool_shutdown p) ws func (arg :: rest)
     = Raise (RuntimeError "cannot schedule new futures after shutdown")
  /\ ProcessPool_batch (ProcessPool_shutdown p) ws func []
     = Ok [].
Proof. repeat split. Qed.

(** A second [shutdown] leaves the pool shut down. *)
Lemma ProcessPool_shutdown_idempotent (p : ProcessPool) :
  ProcessPool_shutdown (ProcessPool_shutdown p) = ProcessPool_shutdown p.
Proof. reflexivity. Qed.

(** ** Construction *)

(** C6 (as amended). With a worker count that the executor accepts,
    [RequestPool.__init__] first creates the worker pool and then checks
    its arguments: a hostname that is not a string or a port that is not
    an integer raises [TypeError], an empty hostname or a port below one
    raises [ValueError], anything else gives the dispatcher. In every case
    the creation of the pool is the only call made, so no connection is
    opened and nothing is sent. [request] repeats none of these checks:
    whatever hostname the connection accepts and whatever port the
    dispatcher holds, it returns as soon as every exchange is answered. *)
Theorem RequestPool_init_validation (n_workers : Z) (host port : pyval Payload)
    (s : state) :
  0 < n_workers < 2147483647 ->
  let out := RequestPool_init n_workers host port s in
  log (snd out) = log s ++ [PoolCreated n_workers]
  /\ (isinstance_str host = false ->
      fst out = Raise (TypeError "Hostname not given as string"))
  /\ (isinstance_str host = true -> isinstance_int port = false ->
      fst out = Raise (TypeError "Port not given as int."))
  /\ (host = VStr "" -> isinstance_int port = true ->
      fst out = Raise (ValueError "Blank hostname given"))
  /\ (forall h p, host = VStr h -> h <> ""%string -> port = VInt p -> p < 1 ->
      fst out = Raise (ValueError "Invalid port number given"))
  /\ (forall h p, host = VStr h -> h <> ""%string -> port = VInt p -> 1 <= p ->
      fst out
      = Ok {| pool := {| n_workers := n_workers;
                         executor := {| max_workers := n_workers; shut := false |} |};
              hostname := h; port := p |})
  /\ (forall (self : RequestPool) (w : env) (ds : list (RequestInfo Payload))
             (s0 : state),
        valid_host (hostname self) = true ->
        (forall i d, nth_error ds i = Some d ->
           answered w (exchanges s0 + i) (wire_request json_dumps self d) <> None) ->
        is_ok (fst (request json_dumps self w (VList (map VReq ds)) s0)) = true).
Proof.
  intros Hn out. subst out. unfold RequestPool_init, ProcessPool_init.
  unfold bind at 1. unfold bind at 1. unfold ProcessPoolExecutor.
  destruct (Z.leb_spec n_workers 0) as [Hle | _]; [lia |].
  destruct (Z.ltb_spec 2147483647 (n_workers + 1)) as [Hlt | _]; [lia |].
  unfold bind at 1. cbn [emit ret].
  split; [| split; [| split; [| split; [| split; [| split]]]]].
  7:{ intros self w ds s0 Hhost Hans.
      now apply (proj2 (request_returns_iff_answered self w ds s0 Hhost)). }
  - destruct host as [| | h | | |]; try reflexivity.
    destruct port as [| p | | | |]; try reflexivity.
    destruct (h =? "")%string; [reflexivity |].
    destruct (p <? 1); reflexivity.
  - intros Hh. destruct host; try discriminate Hh; reflexivity.
  - intros Hh Hp. destruct host; try discriminate Hh.
    destruct port; try discriminate Hp; reflexivity.
  - intros -> Hp. destruct port; try discriminate Hp. reflexivity.
  - intros h p -> Hh -> Hp.
    destruct (String.eqb_spec h ""); [contradiction |].
    destruct (Z.ltb_spec p 1); [reflexivity | lia].
  - intros h p -> Hh -> Hp.
    destruct (String.eqb_spec h ""); [contradiction |].
    destruct (Z.ltb_spec p 1); [lia | reflexivity].
Qed.

(** C3 (what the code does). [RequestInfo.__init__] performs no check:
    it returns a descriptor for a [POST] without payload, for a [GET] with
    a payload, for an empty endpoint and for a method that is neither
    [GET] nor [POST]. *)
Theorem RequestInfo_init_accepts_invalid (p : Payload) :
  (exists r, RequestInfo_init "/" "POST" (@None Payload) = Ok r
             /\ spec_valid_descriptor r = false)
  /\ (exists r, RequestInfo_init "/" "GET" (Some p) = Ok r
                /\ spec_valid_descriptor r = false)
  /\ (exists r, RequestInfo_init "" "GET" (@None Payload) = Ok r
                /\ spec_valid_descriptor r = false)
  /\ (exists r, RequestInfo_init "/" "HELP" (@None Payload) = Ok r
                /\ spec_valid_descriptor r = false).
Proof. repeat split; eexists; split; reflexivity. Qed.

(** What the inherited comparison does guarantee: instances that compare
    equal are one object, hence hold the same fields. *)
Lemma RequestInfo_eq_same_fields (h : heap Payload) (a b : nat) :
  RequestInfo_eq a b = true -> deref h a = deref h b.
Proof. unfold RequestInfo_eq. intros H. apply Nat.eqb_eq in H. now subst. Qed.

(** C7 (what the code does). Two descriptors built one after the other
    from the same endpoint, method and payload hold equal fields and yet
    compare unequal, the comparison being identity. *)
Theorem RequestInfo_eq_is_identity (h : heap Payload) (e m : string)
    (d : option Payload) :
  exists (a b : nat) (h1 h2 : heap Payload),
    RequestInfo_new h e m d = Ok (a, h1)
    /\ RequestInfo_new h1 e m d = Ok (b, h2)
    /\ deref h2 a = Some {| endpoint := e; method := Text.upper m; data := d |}
    /\ deref h2 b = Some {| endpoint := e; method := Text.upper m; data := d |}
    /\ RequestInfo_eq a b = false.
Proof.
  unfold RequestInfo_new, RequestInfo_init, deref, RequestInfo_eq.
  do 4 eexists. split; [reflexivity |]. split; [reflexivity |].
  split; [| split].
  - rewrite nth_error_app1 by (rewrite length_app; simpl; lia).
    now rewrite nth_error_app2, Nat.sub_diag by lia.
  - now rewrite nth_error_app2, length_app, Nat.sub_diag by (rewrite length_app; lia).
  - rewrite length_app. cbn [length]. apply Nat.eqb_neq. lia.
Qed.

(** ** The request with a payload *)








End Properties.

(** ** Closed instances *)


(** The scenario of the unit tests: one [GET] of the root endpoint against
    the mock transport, with the calls made. *)
Example request_root_req :
  request json_text localhost mock_env (VList [VReq root_req]) initial
  = (Ok [(status_okay, 1%float, "/")],
     {| ticks := 2; conns := 1; exchanges := 1; pending := None;
        log := [Opened 0 "localhost" 8081;
                Clock 0%float;
                Sent 0 (wire_request json_text localhost root_req);
                Received 0 status_okay;
                Clock 1%float;
                Closed 0] |}).
Proof. reflexivity. Qed.


(** The difference is that of binary64: with a first reading of two to the
    minus sixty and a second of one, the elapsed time is one. *)
Example request_elapsed_rounds :
  fst (request json_text localhost tiny_start_env (VList [VReq root_req]) initial)
  = Ok [(status_okay, 1%float, "/")].
Proof. reflexivity. Qed.

Lemma request_connection_lifecycle_witness :
  valid_host (hostname localhost) = true
  /\ (forall i d, nth_error [root_req; post_req] i = Some d ->
        answered mock_env (exchanges initial + i) (wire_request json_text localhost d)
        <> None)
  /\ exists (rs : list ResultTuple) (calls : list event) (s' : state),
       request json_text localhost mock_env
         (VList (map VReq [root_req; post_req])) initial = (Ok rs, s')
       /\ length rs = length [root_req; post_req]
       /\ log s' = log initial ++ calls
       /\ connection_calls calls
          = [Opened (conns initial) (hostname localhost) (port localhost)]
            ++ map (fun d => Sent (conns initial)
                               (wire_request json_text localhost d))
                   [root_req; post_req]
            ++ [Closed (conns initial)]
       /\ ([root_req; post_req] = [] ->
           rs = []
           /\ calls = [Opened (conns initial) (hostname localhost) (port localhost);
                       Closed (conns initial)]).
Proof.
  assert (H : forall i d, nth_error [root_req; post_req] i = Some d ->
            answered mock_env (exchanges initial + i)
              (wire_request json_text localhost d) <> None).
  { intros i d _. unfold answered. cbn [server mock_env]. discriminate. }
  split; [reflexivity |]. split; [exact H |].
  exact (request_connection_lifecycle json_text localhost mock_env
           [root_req; post_req] initial eq_refl H).
Defined.

(** The empty list: an open, a close, no other call, nothing returned. *)
Example request_empty :
  request json_text localhost mock_env (VList []) initial
  = (Ok [],
     {| ticks := 0; conns := 1; exchanges := 0; pending := None;
        log := [Opened 0 "localhost" 8081; Closed 0] |}).
Proof. reflexivity. Qed.

(** When the transport raises in the loop, the error reaches the caller
    and [request] does not call [close]: the log ends with the request
    that failed. *)
Lemma request_error_skips_close :
  request json_text localhost refused_env (VList [VReq root_req]) initial
  = (Raise (TransportError "Connection refused"),
     {| ticks := 1; conns := 1; exchanges := 0; pending := None;
        log := [Opened 0 "localhost" 8081;
                Clock 0%float;
                Sent 0 (wire_request json_text localhost root_req)] |})
  /\ ~ In (Closed 0)
          (log (snd (request json_text localhost refused_env
                       (VList [VReq root_req]) initial))).
Proof.
  split; [reflexivity |].
  cbn. intros [H | [H | [H | []]]]; discriminate H.
Qed.


(** The scenario of [test_single_request__expected]: the job is [request]
    on the one descriptor, and the handle is that of [batch_request]. *)
Example single_request_root_req :
  exists f,
    single_request json_text localhost mock_env (VReq root_req) = Ok f
    /\ batch_request json_text localhost (fun _ => mock_env) [VList [VReq root_req]]
       = Ok [f]
    /\ fst (call (request_method json_text localhost) mock_env (VList [VReq root_req]))
       = Ok [(status_okay, 1%float, "/")].
Proof. eexists. repeat split; reflexivity. Qed.

(** A hostname that is not a string is reported after the pool has been
    created. *)
Lemma RequestPool_init_creates_pool_first :
  RequestPool_init (Payload := string) 1 (VInt 1) (VInt 8081) initial
  = (Raise (TypeError "Hostname not given as string"),
     {| ticks := 0; conns := 0; exchanges := 0; pending := None;
        log := [PoolCreated 1] |}).
Proof. reflexivity. Qed.

Lemma RequestPool_init_validation_witness :
  0 < 2 < 2147483647
  /\ let out := RequestPool_init (Payload := string) 2 (VStr "localhost") (VInt 8081)
                  initial in
     log (snd out) = log initial ++ [PoolCreated 2]
     /\ (isinstance_str (@VStr string "localhost") = false ->
         fst out = Raise (TypeError "Hostname not given as string"))
     /\ (isinstance_str (@VStr string "localhost") = true ->
         isinstance_int (@VInt string 8081) = false ->
         fst out = Raise (TypeError "Port not given as int."))
     /\ (@VStr string "localhost" = VStr "" ->
         isinstance_int (@VInt string 8081) = true ->
         fst out = Raise (ValueError "Blank hostname given"))
     /\ (forall h p, @VStr string "localhost" = VStr h -> h <> ""%string ->
         @VInt string 8081 = VInt p -> p < 1 ->
         fst out = Raise (ValueError "Invalid port number given"))
     /\ (forall h p, @VStr string "localhost" = VStr h -> h <> ""%string ->
         @VInt string 8081 = VInt p -> 1 <= p ->
         fst out
         = Ok {| pool := {| n_workers := 2;
                            executor := {| max_workers := 2; shut := false |} |};
                 hostname := h; port := p |})
     /\ (forall (self : RequestPool) (w : env) (ds : list (RequestInfo string))
                (s0 : state),
           valid_host (hostname self) = true ->
           (forall i d, nth_error ds i = Some d ->
              answered w (exchanges s0 + i) (wire_request json_text self d) <> None) ->
           is_ok (fst (request json_text self w (VList (map VReq ds)) s0)) = true).
Proof.
  split; [lia |].
  exact (RequestPool_init_validation json_text 2 (VStr "localhost") (VInt 8081)
           initial ltac:(lia)).
Defined.

(** The valid construction of the unit tests. *)
Example RequestPool_init_localhost :
  fst (RequestPool_init (Payload := string) 2 (VStr "localhost") (VInt 8081) initial)
  = Ok localhost.
Proof. reflexivity. Qed.

(** The largest worker count that the executor accepts, and the first it
    refuses. *)
Example RequestPool_init_worker_count_limit :
  is_ok (fst (RequestPool_init (Payload := string) 2147483646
                (VStr "localhost") (VInt 8081) initial)) = true
  /\ RequestPool_init (Payload := string) 2147483647
       (VStr "localhost") (VInt 8081) initial
     = (Raise (OverflowError "Python int too large to convert to C int"), initial).
Proof. split; reflexivity. Qed.

(** [batch] with nothing to submit does not raise after [shutdown]. *)
Lemma batch_empty_after_shutdown :
  ProcessPool_batch (ProcessPool_shutdown three_workers) (fun _ => tt) square []
  = Ok []
  /\ is_ok (ProcessPool_batch (ProcessPool_shutdown three_workers)
              (fun _ => tt) square []) = true.
Proof. split; reflexivity. Qed.

(** The scenario of [test_shutdown]. *)
Example single_before_and_after_shutdown :
  ProcessPool_single three_workers tt square 2 = Ok (Done 4)
  /\ ProcessPool_single (ProcessPool_shutdown three_workers) tt square 2
     = Raise (RuntimeError "cannot schedule new futures after shutdown").
Proof. split; reflexivity. Qed.

(** The expectation of [test_init__expected] that the code does not meet:
    a descriptor compared with one built from the same values. *)
Example RequestInfo_same_fields_unequal :
  exists a b h1 h2,
    RequestInfo_new [] "a" "GET" (@None string) = Ok (a, h1)
    /\ RequestInfo_new h1 "a" "GET" None = Ok (b, h2)
    /\ deref h2 a = deref h2 b
    /\ RequestInfo_eq a b = false.
Proof. do 4 eexists. repeat split; reflexivity. Qed.


(** The [POST] of the unit tests as it is handed to the connection, and
    its fields as HTTP reads them. *)
Example post_req_on_the_wire :
  wire_request json_text localhost post_req
  = {| rq_method := "POST"; rq_url := "/";
       rq_body := Some hello_world;
       rq_headers :=
         [ ("Content-Length", "18");
           ("Content-type", "application/json");
           ("Host", "localhost:8081");
           ("User-Agent", "algosrestclient/0.1.0");
           ("Accept", "*/*");
           ("Connection", " keep-alive") ] |}
  /\ map (fun name =>
            http_field name (rq_headers (wire_request json_text localhost post_req)))
         ["content-length"; "Content-Type"; "Connection"]
     = [Some "18"; Some "application/json"; Some "keep-alive"].
Proof. split; reflexivity. Qed.

(** * Further properties of the dispatcher *)

Section Dispatch.

Context {Payload : Type} (json_dumps : Payload -> string).

(** ** Input checks of [request] *)

(** X1. [request] checks its argument before it touches anything: an
    argument that is not a list, and a list with an element that is not a
    [RequestInfo] wherever it stands in the list, raise [TypeError] and
    leave the state as it was, so no clock is read, no connection is
    opened and nothing is sent. *)
Theorem request_rejects_before_io (self : RequestPool) (w : env)
    (v : pyval Payload) (s : state) :
  passes_request_checks v = false ->
  request json_dumps self w v s
  = (Raise (TypeError match v with
                      | VList _ => "Unsupported Type for Input Elements"
                      | _ => "Unsupported Type for Input List"
                      end), s).
Proof.
  intros Hv. destruct v as [| z | t | p | r | l]; try reflexivity.
  unfold request. cbn [passes_request_checks] in Hv. now rewrite Hv.
Qed.

(** X15. The constructor lets through a host name that the connection
    refuses: for a dispatcher whose host name holds a space or a control
    character, [request] on an argument that passes its two checks raises
    [InvalidURL] when it creates the connection and leaves the state as it
    was, so no clock is read and nothing is sent, whatever the list
    holds, the empty list included. *)
Theorem request_refuses_host (self : RequestPool) (w : env)
    (v : pyval Payload) (s : state) :
  passes_request_checks v = true ->
  valid_host (hostname self) = false ->
  request json_dumps self w v s = (Raise InvalidURL, s).
Proof.
  intros Hv Hhost. destruct v as [| z | t | p | r | l]; try discriminate Hv.
  unfold request. cbn [passes_request_checks] in Hv. rewrite Hv.
  unfold bind, HTTPConnection. now rewrite Hhost.
Qed.

(** ** What [request] does on every path *)

Lemma failure_or_answered (w : env) (k : nat) (rq : http_request) :
  (exists text, answered w k rq = Some text /\ failure w k rq = None)
  \/ (exists e, failure w k rq = Some e /\ answered w k rq = None).
Proof.
  unfold answered, failure.
  destruct (server w k rq) as [msg | msg | msg | body];
    try (right; eexists; split; reflexivity).
  destruct (Text.utf8_valid body).
  - left. eexists. split; reflexivity.
  - right. eexists. split; reflexivity.
Qed.

(** One turn of the loop when the exchange fails: the exception of the
    exchange leaves the loop and the request that failed is the last call
    made on the connection. *)
Lemma request_loop_fails (self : RequestPool) (w : env) (conn : nat)
    (d : RequestInfo Payload) (ds : list (RequestInfo Payload))
    (acc : list ResultTuple) (s : state) (e : exn) :
  failure w (exchanges s) (wire_request json_dumps self d) = Some e ->
  exists (s' : state) (l : list event),
    request_loop json_dumps self w conn (d :: ds) acc s = (Raise e, s')
    /\ log s' = log s ++ l
    /\ connection_calls l = [Sent conn (wire_request json_dumps self d)].
Proof.
  unfold failure, wire_request. intros Hf.
  cbn [request_loop]. unfold bind at 1. cbn [time_time].
  destruct (data d) as [p |];
    unfold bind at 1; unfold conn_request; cbn [exchanges log];
    (destruct (server w (exchanges s) _) as [msg | msg | msg | body] eqn:Hsrv;
       [ injection Hf as <-; do 2 eexists;
         split; [reflexivity |]; cbn [log]; rewrite <- app_assoc;
         split; reflexivity | | | ]);
    unfold bind at 1; unfold conn_getresponse; cbn [pending exchanges];
    rewrite Hsrv;
    try (injection Hf as <-; do 2 eexists;
         split; [reflexivity |]; cbn [log]; rewrite <- app_assoc;
         split; reflexivity);
    unfold bind at 1; unfold response_read; cbn [content of_conn];
    try (injection Hf as <-; do 2 eexists;
         split; [reflexivity |]; cbn [log]; rewrite <- app_assoc;
         split; reflexivity);
    unfold bind at 1; unfold bytes_decode;
    (destruct (Text.utf8_valid body); [discriminate Hf |]);
    injection Hf as <-; do 2 eexists;
    (split; [reflexivity |]); cbn [log]; rewrite <- !app_assoc;
    split; reflexivity.
Qed.

(** The calls of the loop on every path: requests for a prefix of the
    descriptors, the whole list exactly when the loop ends normally. *)
Lemma request_loop_trace (self : RequestPool) (w : env) (conn : nat)
    (ds : list (RequestInfo Payload)) :
  forall (acc : list ResultTuple) (s : state),
    exists (k : nat) (l : list event),
      (k <= length ds)%nat
      /\ log (snd (request_loop json_dumps self w conn ds acc s)) = log s ++ l
      /\ connection_calls l
         = map (fun d => Sent conn (wire_request json_dumps self d)) (firstn k ds)
      /\ (if is_ok (fst (request_loop json_dumps self w conn ds acc s))
          then k = length ds else (0 < k)%nat).
Proof.
  induction ds as [| d ds IH]; intros acc s.
  - exists 0%nat, []. cbn. rewrite app_nil_r. auto.
  - destruct (failure_or_answered w (exchanges s) (wire_request json_dumps self d))
      as [(text & Ha & _) | (e & Hf & _)].
    + rewrite (request_loop_cons json_dumps self w conn d ds acc s text Ha).
      match goal with
      | |- context [request_loop json_dumps self w conn ds ?acc' ?s1] =>
          destruct (IH acc' s1) as (k & l & Hk & Hlog & Hcalls & Hend)
      end.
      exists (S k),
        (exchange_events w conn (ticks s) (wire_request json_dumps self d) text ++ l).
      split; [cbn; lia |]. split; [| split].
      * rewrite Hlog. cbn [log]. now rewrite <- app_assoc.
      * unfold connection_calls in *. rewrite filter_app, Hcalls. reflexivity.
      * destruct (is_ok _); cbn [length]; lia.
    + destruct (request_loop_fails self w conn d ds acc s e Hf)
        as (s' & l & Hr & Hlog & Hcalls).
      exists 1%nat, l. rewrite Hr. cbn [fst snd is_ok firstn map length].
      split; [lia |]. split; [exact Hlog |]. split; [exact Hcalls | lia].
Qed.

(** X2. Whatever the server does, a call of [request] on a list of
    descriptors, on a dispatcher whose host name the connection accepts,
    creates one connection and hands it, in order, the requests of a
    prefix of the list; it calls [close] on the connection exactly when it
    returns normally, and then the prefix is the whole list. When it
    raises, at least one request was handed to the connection and
    [request] has not called [close]. *)
Theorem request_trace (self : RequestPool) (w : env)
    (ds : list (RequestInfo Payload)) (s : state) :
  valid_host (hostname self) = true ->
  exists (k : nat) (calls : list event),
    (k <= length ds)%nat
    /\ log (snd (request json_dumps self w (VList (map VReq ds)) s)) = log s ++ calls
    /\ connection_calls calls
       = [Opened (conns s) (hostname self) (port self)]
         ++ map (fun d => Sent (conns s) (wire_request json_dumps self d))
                (firstn k ds)
         ++ (if is_ok (fst (request json_dumps self w (VList (map VReq ds)) s))
             then [Closed (conns s)] else [])
    /\ (if is_ok (fst (request json_dumps self w (VList (map VReq ds)) s))
        then k = length ds else (0 < k)%nat).
Proof.
  intros Hhost. rewrite (request_by_loop json_dumps self w ds s Hhost).
  set (s0 := {| ticks := ticks s; conns := S (conns s); exchanges := exchanges s;
                pending := pending s;
                log := log s ++ [Opened (conns s) (hostname self) (port self)] |}).
  destruct (request_loop_trace self w (conns s) ds [] s0)
    as (k & l & Hk & Hlog & Hcalls & Hend).
  exists k.
  destruct (request_loop json_dumps self w (conns s) ds [] s0) as [[rs | e] s1];
    cbn [fst snd is_ok log] in *.
  - exists ([Opened (conns s) (hostname self) (port self)] ++ l ++ [Closed (conns s)]).
    split; [exact Hk |]. split; [| split; [| exact Hend]].
    + rewrite Hlog. cbn [s0 log]. now rewrite <- !app_assoc.
    + unfold connection_calls in *. rewrite !filter_app, Hcalls. reflexivity.
  - exists ([Opened (conns s) (hostname self) (port self)] ++ l).
    split; [exact Hk |]. split; [| split; [| exact Hend]].
    + rewrite Hlog. cbn [s0 log]. now rewrite <- !app_assoc.
    + unfold connection_calls in *. rewrite !filter_app, Hcalls.
      now rewrite app_nil_r.
Qed.

(** The loop up to the first exchange that fails. *)
Lemma request_loop_first_failure (self : RequestPool) (w : env) (conn : nat)
    (e : exn) (ds : list (RequestInfo Payload)) :
  forall (k : nat) (d : RequestInfo Payload) (acc : list ResultTuple) (s : state),
    nth_error ds k = Some d ->
    (forall i di, (i < k)%nat -> nth_error ds i = Some di ->
       answered w (exchanges s + i) (wire_request json_dumps self di) <> None) ->
    failure w (exchanges s + k) (wire_request json_dumps self d) = Some e ->
    exists (s' : state) (l : list event),
      request_loop json_dumps self w conn ds acc s = (Raise e, s')
      /\ log s' = log s ++ l
      /\ connection_calls l
         = map (fun d => Sent conn (wire_request json_dumps self d))
               (firstn (S k) ds).
Proof.
  induction ds as [| d0 ds IH]; intros k d acc s Hk Hans Hf.
  - destruct k; discriminate Hk.
  - destruct k as [| k].
    + injection Hk as <-. rewrite Nat.add_0_r in Hf.
      destruct (request_loop_fails self w conn d0 ds acc s e Hf)
        as (s' & l & Hr & Hlog & Hcalls).
      exists s', l. split; [exact Hr |]. split; [exact Hlog | exact Hcalls].
    + destruct (answered w (exchanges s) (wire_request json_dumps self d0))
        as [text |] eqn:H0.
      2:{ exfalso. apply (Hans 0%nat d0 ltac:(lia) eq_refl).
          now rewrite Nat.add_0_r. }
      rewrite (request_loop_cons json_dumps self w conn d0 ds acc s text H0).
      match goal with
      | |- context [request_loop json_dumps self w conn ds ?acc' ?s1] =>
          destruct (IH k d acc' s1 Hk) as (s' & l & Hr & Hlog & Hcalls)
      end.
      * intros i di Hi Hnth. cbn [exchanges].
        replace (S (exchanges s) + i)%nat with (exchanges s + S i)%nat by lia.
        apply (Hans (S i) di); [lia | exact Hnth].
      * cbn [exchanges].
        now replace (S (exchanges s) + k)%nat with (exchanges s + S k)%nat by lia.
      * exists s',
          (exchange_events w conn (ticks s) (wire_request json_dumps self d0) text
           ++ l).
        split; [exact Hr |]. split.
        -- rewrite Hlog. cbn [log]. now rewrite <- app_assoc.
        -- unfold connection_calls in *. rewrite filter_app, Hcalls.
           rewrite firstn_cons. reflexivity.
Qed.

(** X3. On a dispatcher whose host name the connection accepts, the first
    exchange that fails decides the outcome of [request]: the error of
    that exchange, be it the transport's or the decoding error of the
    body, reaches the caller as it was raised; the results of the earlier
    exchanges are not returned; the failed request is the last call that
    [request] makes on the connection, so the requests after it are never
    handed over and [request] does not call [close]. *)
Theorem request_propagates_first_failure (self : RequestPool) (w : env)
    (ds : list (RequestInfo Payload)) (k : nat) (d : RequestInfo Payload)
    (e : exn) (s : state) :
  valid_host (hostname self) = true ->
  nth_error ds k = Some d ->
  (forall i di, (i < k)%nat -> nth_error ds i = Some di ->
     answered w (exchanges s + i) (wire_request json_dumps self di) <> None) ->
  failure w (exchanges s + k) (wire_request json_dumps self d) = Some e ->
  exists (s' : state) (calls : list event),
    request json_dumps self w (VList (map VReq ds)) s = (Raise e, s')
    /\ log s' = log s ++ calls
    /\ connection_calls calls
       = [Opened (conns s) (hostname self) (port self)]
         ++ map (fun d => Sent (conns s) (wire_request json_dumps self d))
                (firstn (S k) ds).
Proof.
  intros Hhost Hk Hans Hf. rewrite (request_by_loop json_dumps self w ds s Hhost).
  set (s0 := {| ticks := ticks s; conns := S (conns s); exchanges := exchanges s;
                pending := pending s;
                log := log s ++ [Opened (conns s) (hostname self) (port self)] |}).
  destruct (request_loop_first_failure self w (conns s) e ds k d [] s0 Hk Hans Hf)
    as (s' & l & Hr & Hlog & Hcalls).
  rewrite Hr.
  exists s', ([Opened (conns s) (hostname self) (port self)] ++ l).
  split; [reflexivity |]. split.
  - rewrite Hlog. cbn [s0 log]. now rewrite <- app_assoc.
  - unfold connection_calls in *. rewrite filter_app, Hcalls. reflexivity.
Qed.

(** ** Dispatch through the pool *)

(** The bound method [self.request] cannot be pickled: the dispatcher
    holds the pool, the pool the executor, and the executor a lock. *)
Lemma request_method_pickle_error (self : RequestPool) :
  pickle_error (as_object (request_method json_dumps self))
  = Some (TypeError "cannot pickle '_thread.lock' object").
Proof. reflexivity. Qed.

(** X4. On a running pool a job dispatched by [single_request] or by
    [batch_request] never reaches a worker, because the bound method
    [self.request] that the job holds cannot be pickled. [single_request]
    returns a handle for every argument, and the handle raises the
    pickling [TypeError] when awaited; [batch_request] returns an iterator
    for every input, and for an input with at least one partition asking
    it for its first result raises the same [TypeError] and ends it; in
    neither case is [request] run. *)
Theorem dispatch_cannot_pickle (self : RequestPool) (w : env) (ws : nat -> env)
    (v part : pyval Payload) (parts : list (pyval Payload)) :
  shut (executor (pool self)) = false ->
  single_request json_dumps self w v
  = Ok (Failed (TypeError "cannot pickle '_thread.lock' object"))
  /\ (forall f, single_request json_dumps self w v = Ok f ->
        Future_result f = Raise (TypeError "cannot pickle '_thread.lock' object"))
  /\ exists it,
       batch_request json_dumps self ws (part :: parts) = Ok it
       /\ length it = S (length parts)
       /\ iterator_next it
          = (Raise (TypeError "cannot pickle '_thread.lock' object"), [])
       /\ iterator_list it
          = Raise (TypeError "cannot pickle '_thread.lock' object").
Proof.
  intros Hrun.
  assert (Hs : single_request json_dumps self w v
               = Ok (Failed (TypeError "cannot pickle '_thread.lock' object"))).
  { unfold single_request, ProcessPool_single, Executor_submit.
    now rewrite Hrun, request_method_pickle_error. }
  split; [exact Hs |]. split.
  { intros f Hf. rewrite Hs in Hf. injection Hf as <-. reflexivity. }
  unfold batch_request, ProcessPool_batch, Executor_map.
  assert (Hmap : forall (l : list (pyval Payload)) (k : nat),
            exists it,
              Executor_map_from (executor (pool self)) ws
                (request_method json_dumps self) k l = Ok it
              /\ length it = length l).
  { induction l as [| x l IH]; intros k.
    - exists []. split; reflexivity.
    - destruct (IH (S k)) as (it & Hit & Hlen).
      cbn [Executor_map_from]. unfold Executor_submit at 1.
      rewrite Hrun, Hit. eexists. split; [reflexivity |]. cbn. now rewrite Hlen. }
  destruct (Hmap parts 1%nat) as (it & Hit & Hlen).
  cbn [Executor_map_from]. unfold Executor_submit at 1.
  rewrite Hrun, request_method_pickle_error, Hit.
  eexists. split; [reflexivity |]. split; [cbn; now rewrite Hlen |].
  split; reflexivity.
Qed.

(** [request] does not look at the pool. *)
Lemma request_loop_shutdown (self : RequestPool) (w : env) (conn : nat)
    (ds : list (RequestInfo Payload)) :
  forall acc s,
    request_loop json_dumps (shutdown self) w conn ds acc s
    = request_loop json_dumps self w conn ds acc s.
Proof.
  induction ds as [| d ds IH]; intros acc s; [reflexivity |].
  cbn [request_loop]. unfold bind.
  destruct (time_time w s) as [[start | e] s1]; [| reflexivity].
  change (headers (shutdown self)) with (headers self).
  change (post_headers (shutdown self)) with (post_headers self).
  destruct (match data d with
            | Some p =>
                conn_request w conn (method d) (endpoint d)
                  (Some (json_dumps p)) (post_headers self (json_dumps p))
            | None =>
                conn_request w conn (method d) (endpoint d) None (headers self)
            end s1) as [[u | e] s2]; [| reflexivity].
  destruct (conn_getresponse w conn s2) as [[r | e] s3]; [| reflexivity].
  destruct (response_read r s3) as [[raw | e] s4]; [| reflexivity].
  destruct (bytes_decode raw s4) as [[text | e] s5]; [| reflexivity].
  destruct (time_time w s5) as [[end_ | e] s6]; [| reflexivity].
  apply IH.
Qed.

(** X6. After [RequestPool.shutdown] the two entry points that go through
    the pool raise the scheduling error, [single_request] for every
    argument and [batch_request] for every input with at least one
    partition, and do so without running [request]; [request] called
    directly is not affected by the shutdown: it behaves as before. *)
Theorem shutdown_stops_dispatch_only (self : RequestPool) (w : env)
    (ws : nat -> env) (v part : pyval Payload) (parts : list (pyval Payload))
    (s : state) :
  single_request json_dumps (shutdown self) w v
  = Raise (RuntimeError "cannot schedule new futures after shutdown")
  /\ batch_request json_dumps (shutdown self) ws (part :: parts)
     = Raise (RuntimeError "cannot schedule new futures after shutdown")
  /\ request json_dumps (shutdown self) w v s = request json_dumps self w v s.
Proof.
  split; [reflexivity |]. split; [reflexivity |].
  unfold request. destruct v as [| z | t | p | r | l]; try reflexivity.
  destruct (forallb isinstance_RequestInfo l); [| reflexivity].
  unfold bind, HTTPConnection. cbn [shutdown hostname port].
  destruct (valid_host (hostname self)); [| reflexivity].
  now rewrite request_loop_shutdown.
Qed.

(** ** Construction *)

(** X7. A worker count that is not positive is reported before the
    hostname and the port are looked at, whatever they are, and nothing is
    created: the state is as it was. *)
Theorem RequestPool_init_worker_count_first (n_workers : Z)
    (hostname port : pyval Payload) (s : state) :
  n_workers <= 0 ->
  RequestPool_init n_workers hostname port s
  = (Raise (ValueError "max_workers must be greater than 0"), s).
Proof.
  intros Hn. unfold RequestPool_init, ProcessPool_init, ProcessPoolExecutor, bind.
  destruct (Z.leb_spec n_workers 0); [reflexivity | lia].
Qed.

End Dispatch.

(** ** Edge cases of [chunks] *)

Section ChunksEdges.

Context {A : Type}.

(** X9. A non-empty list that fits in one chunk comes back as that one
    chunk. *)
Theorem chunks_single_chunk (xs : list A) (n : Z) :
  xs <> [] ->
  Z.of_nat (length xs) <= n ->
  chunks xs n = Ok [xs].
Proof.
  intros Hne Hn.
  assert (Hlen : (0 < length xs)%nat) by (destruct xs; [contradiction | cbn; lia]).
  rewrite chunks_pos by lia.
  pose proof (ceil_div_spec (Z.of_nat (length xs)) n ltac:(lia)) as Hs.
  assert (Hc : ceil_div (Z.of_nat (length xs)) n = 1) by nia.
  rewrite Hc. change (Z.to_nat 1) with 1%nat. cbn [seq map].
  rewrite Nat.mul_0_l. cbn [skipn].
  now rewrite firstn_all2 by lia.
Qed.

(** X10. The empty list has no chunk, for every chunk size but zero, a
    negative one included. *)
Theorem chunks_empty (n : Z) :
  n <> 0 -> chunks (@nil A) n = Ok [].
Proof.
  intros Hn. unfold chunks, PyList.range, PyList.range_len. cbn [length Z.of_nat].
  destruct (Z.eqb_spec n 0); [contradiction |].
  rewrite Z.ltb_irrefl, !andb_false_r. reflexivity.
Qed.

End ChunksEdges.

(** ** Closed instances of the further properties *)

(** The list of the unit tests, [[root_req, 1]]. *)
Lemma request_rejects_before_io_witness :
  passes_request_checks (VList [VReq root_req; VInt 1]) = false
  /\ request json_text localhost mock_env (VList [VReq root_req; VInt 1]) initial
     = (Raise (TypeError "Unsupported Type for Input Elements"), initial).
Proof.
  split; [reflexivity |].
  exact (request_rejects_before_io json_text localhost mock_env
           (VList [VReq root_req; VInt 1]) initial eq_refl).
Defined.

(** A host name with a space: the empty list already raises. *)
Lemma request_refuses_host_witness :
  passes_request_checks (@VList string []) = true
  /\ valid_host (hostname local_host) = false
  /\ request json_text local_host mock_env (VList []) initial
     = (Raise InvalidURL, initial).
Proof.
  split; [reflexivity |]. split; [reflexivity |].
  exact (request_refuses_host json_text local_host mock_env (VList []) initial
           eq_refl eq_refl).
Defined.

(** The constructor accepts that host name. *)
Example RequestPool_init_local_host :
  fst (RequestPool_init (Payload := string) 1 (VStr "local host") (VInt 8081) initial)
  = Ok local_host.
Proof. reflexivity. Qed.

Lemma request_trace_witness :
  valid_host (hostname localhost) = true
  /\ exists (k : nat) (calls : list event),
       (k <= length [root_req; post_req])%nat
       /\ log (snd (request json_text localhost flaky_env
                      (VList (map VReq [root_req; post_req])) initial))
          = log initial ++ calls
       /\ connection_calls calls
          = [Opened (conns initial) (hostname localhost) (port localhost)]
            ++ map (fun d => Sent (conns initial)
                               (wire_request json_text localhost d))
                   (firstn k [root_req; post_req])
            ++ (if is_ok (fst (request json_text localhost flaky_env
                                 (VList (map VReq [root_req; post_req])) initial))
                then [Closed (conns initial)] else [])
       /\ (if is_ok (fst (request json_text localhost flaky_env
                            (VList (map VReq [root_req; post_req])) initial))
           then k = length [root_req; post_req] else (0 < k)%nat).
Proof.
  split; [reflexivity |].
  exact (request_trace json_text localhost flaky_env [root_req; post_req] initial
           eq_refl).
Defined.

Lemma request_propagates_first_failure_witness :
  valid_host (hostname localhost) = true
  /\ nth_error [root_req; post_req] 1 = Some post_req
  /\ (forall i di, (i < 1)%nat -> nth_error [root_req; post_req] i = Some di ->
        answered flaky_env (exchanges initial + i)
          (wire_request json_text localhost di) <> None)
  /\ failure flaky_env (exchanges initial + 1)
       (wire_request json_text localhost post_req)
     = Some (TransportError "IncompleteRead")
  /\ exists (s' : state) (calls : list event),
       request json_text localhost flaky_env
         (VList (map VReq [root_req; post_req])) initial
       = (Raise (TransportError "IncompleteRead"), s')
       /\ log s' = log initial ++ calls
       /\ connection_calls calls
          = [Opened (conns initial) (hostname localhost) (port localhost)]
            ++ map (fun d => Sent (conns initial)
                               (wire_request json_text localhost d))
                   (firstn 2 [root_req; post_req]).
Proof.
  assert (H : forall i di, (i < 1)%nat -> nth_error [root_req; post_req] i = Some di ->
            answered flaky_env (exchanges initial + i)
              (wire_request json_text localhost di) <> None).
  { intros i di Hi _. destruct i; [| lia]. cbn. discriminate. }
  split; [reflexivity |]. split; [reflexivity |]. split; [exact H |].
  split; [reflexivity |].
  exact (request_propagates_first_failure json_text localhost flaky_env
           [root_req; post_req] 1 post_req (TransportError "IncompleteRead")
           initial eq_refl eq_refl H eq_refl).
Defined.

(** The run behind the two witnesses above: the first exchange is
    answered and the second is cut short while it is read. *)
Example request_flaky :
  request json_text localhost flaky_env (VList (map VReq [root_req; post_req])) initial
  = (Raise (TransportError "IncompleteRead"),
     {| ticks := 3; conns := 1; exchanges := 2; pending := None;
        log := [Opened 0 "localhost" 8081;
                Clock 0%float;
                Sent 0 (wire_request json_text localhost root_req);
                Received 0 status_okay;
                Clock 1%float;
                Clock 2%float;
                Sent 0 (wire_request json_text localhost post_req)] |}).
Proof. reflexivity. Qed.

(** Two single-element partitions, as in the unit tests. *)
Lemma dispatch_cannot_pickle_witness :
  shut (executor (pool localhost)) = false
  /\ single_request json_text localhost mock_env (VReq root_req)
     = Ok (Failed (TypeError "cannot pickle '_thread.lock' object"))
  /\ (forall f, single_request json_text localhost mock_env (VReq root_req) = Ok f ->
        Future_result f = Raise (TypeError "cannot pickle '_thread.lock' object"))
  /\ exists it,
       batch_request json_text localhost (fun _ => mock_env)
         [VList [VReq root_req]; VList [VReq root_req]] = Ok it
       /\ length it = S (length [@VList string [VReq root_req]])
       /\ iterator_next it
          = (Raise (TypeError "cannot pickle '_thread.lock' object"), [])
       /\ iterator_list it
          = Raise (TypeError "cannot pickle '_thread.lock' object").
Proof.
  split; [reflexivity |].
  exact (dispatch_cannot_pickle json_text localhost mock_env (fun _ => mock_env)
           (VReq root_req) (VList [VReq root_req]) [VList [VReq root_req]] eq_refl).
Defined.

(** A module-level function, as the pool's own unit tests submit, is
    pickled and run. *)
Example batch_square :
  exists it,
    ProcessPool_batch three_workers (fun _ => tt) square [1; 2; 3] = Ok it
    /\ iterator_list it = Ok [1; 4; 9].
Proof. eexists. split; reflexivity. Qed.

Lemma RequestPool_init_worker_count_first_witness :
  0 <= 0
  /\ RequestPool_init (Payload := string) 0 (VStr "localhost") (VInt 8081) initial
     = (Raise (ValueError "max_workers must be greater than 0"), initial).
Proof.
  split; [lia |].
  exact (RequestPool_init_worker_count_first 0 (VStr "localhost") (VInt 8081)
           initial ltac:(lia)).
Defined.

Lemma chunks_single_chunk_witness :
  ["a"; "b"; "c"] <> []
  /\ Z.of_nat (length ["a"; "b"; "c"]) <= 5
  /\ chunks ["a"; "b"; "c"] 5 = Ok [["a"; "b"; "c"]].
Proof.
  assert (Hne : ["a"; "b"; "c"] <> []) by discriminate.
  assert (Hle : Z.of_nat (length ["a"; "b"; "c"]) <= 5) by (cbn; lia).
  split; [exact Hne |]. split; [exact Hle |].
  exact (chunks_single_chunk ["a"; "b"; "c"] 5 Hne Hle).
Defined.

Lemma chunks_empty_witness :
  -1 <> 0 /\ chunks (@nil string) (-1) = Ok [].
Proof.
  assert (H : -1 <> 0) by discriminate.
  split; [exact H |]. exact (chunks_empty (-1) H).
Defined.

(** * Properties of [ReadStdIn] *)

Lemma append_empty_r (s : string) : (s ++ "")%string = s.
Proof. induction s as [| c s IH]; cbn; congruence. Qed.

Lemma append_assoc_string (a b c : string) :
  ((a ++ b) ++ c)%string = (a ++ (b ++ c))%string.
Proof. induction a as [| x a IH]; cbn; congruence. Qed.

Lemma concat_empty_cons (x : string) (xs : list string) :
  String.concat "" (x :: xs) = (x ++ String.concat "" xs)%string.
Proof. destruct xs; cbn; [now rewrite append_empty_r | reflexivity]. Qed.

Lemma concat_String_cons (sep : string) (c : ascii) (x : string) (xs : list string) :
  String.concat sep (String c x :: xs) = String c (String.concat sep (x :: xs)).
Proof. destruct xs; reflexivity. Qed.

(** Joining the lines that [readlines] gives restores the text. *)
Lemma concat_keep_lines (s : string) : String.concat "" (keep_lines s) = s.
Proof.
  induction s as [| c s IH]; [reflexivity |].
  cbn [keep_lines]. destruct (Ascii.eqb c LF).
  - rewrite concat_empty_cons, IH. reflexivity.
  - destruct (keep_lines s) as [| l ls].
    + cbn in IH. subst s. reflexivity.
    + rewrite concat_String_cons, IH. reflexivity.
Qed.

Lemma split_on_not_nil (sep : ascii) (s : string) : split_on sep s <> [].
Proof.
  destruct s as [| c s]; cbn; [discriminate |].
  destruct (Ascii.eqb c sep); [discriminate |].
  destruct (split_on sep s); discriminate.
Qed.

Lemma concat_split_on (sep : ascii) (s : string) :
  String.concat (String sep "") (split_on sep s) = s.
Proof.
  induction s as [| c s IH]; [reflexivity |].
  cbn [split_on]. destruct (Ascii.eqb_spec c sep) as [-> | Hne].
  - pose proof (split_on_not_nil sep s) as Hnn.
    destruct (split_on sep s) as [| x xs]; [contradiction |].
    change (String.concat (String sep "") ("" :: x :: xs)%string)
      with (String sep (String.concat (String sep "") (x :: xs))).
    now rewrite IH.
  - pose proof (split_on_not_nil sep s) as Hnn.
    destruct (split_on sep s) as [| x xs]; [contradiction |].
    rewrite concat_String_cons, IH. reflexivity.
Qed.

Lemma length_split_on (sep : ascii) (s : string) :
  length (split_on sep s) = S (occurrences sep s).
Proof.
  induction s as [| c s IH]; [reflexivity |].
  cbn [split_on occurrences]. destruct (Ascii.eqb c sep).
  - cbn. now rewrite IH.
  - pose proof (split_on_not_nil sep s) as Hnn.
    destruct (split_on sep s) as [| x xs]; [contradiction |]. exact IH.
Qed.

Lemma split_on_free (sep : ascii) (s : string) :
  Forall (fun x => occurrences sep x = O) (split_on sep s).
Proof.
  induction s as [| c s IH]; [repeat constructor |].
  cbn [split_on]. destruct (Ascii.eqb c sep) eqn:Hc.
  - constructor; [reflexivity | exact IH].
  - destruct (split_on sep s) as [| x xs]; [repeat constructor; cbn; now rewrite Hc |].
    inversion IH as [| ? ? Hx Hxs]; subst.
    constructor; [cbn; now rewrite Hc | exact Hxs].
Qed.

(** X11. When [ReadStdIn.string] returns, it has read standard input to
    its end and logged nothing; the strings it returns contain no line
    feed, there is one more of them than there are line feeds in the
    input, and joined by line feeds they give back the input exactly. So
    an empty input gives one empty string, and an input that ends in a
    line feed gives a last element that is empty. *)
Theorem ReadStdIn_string_round_trip (st st' : stdio) (a : list string) :
  ReadStdIn_string st = (Ok a, st') ->
  st' = {| stdin := ""; critical := critical st |}
  /\ String.concat nl a = stdin st
  /\ length a = S (occurrences LF (stdin st))
  /\ Forall (fun x => occurrences LF x = O) a.
Proof.
  unfold ReadStdIn_string, io_bind, readlines, io_ret.
  rewrite concat_keep_lines. intros H. injection H as <- <-.
  split; [reflexivity |]. split; [apply concat_split_on |].
  split; [apply length_split_on | apply split_on_free].
Qed.

Section ReadStdInFacts.

Context {Float : Type}.
Variable py_int : string -> Z + string.
Variable py_float : string -> Float + string.
Variable str_split : string -> list string.
Variable repr_float : Float -> string.
Variable repr_str : string -> string.

(** X12. [ReadStdIn.array] reads exactly one line when the type is one of
    "int", "float" and "str", whether it then returns or raises, so a line
    that fails to convert is consumed all the same; for any other type it
    raises without reading. *)
Theorem ReadStdIn_array_reads_one_line (typ : string) (st : stdio) :
  stdin (snd (ReadStdIn_array py_int py_float str_split typ st))
  = if ((typ =? "int") || (typ =? "float") || (typ =? "str"))%string
    then snd (take_line (stdin st))
    else stdin st.
Proof.
  unfold ReadStdIn_array.
  destruct ((typ =? "int") || (typ =? "float") || (typ =? "str"))%string;
    [| reflexivity].
  unfold io_bind, readline.
  destruct (fst (take_line (stdin st)) =? "")%string; [reflexivity |].
  destruct (convert_words py_int py_float typ _); reflexivity.
Qed.

Lemma map_conv_EInt (words : list string) :
  forall row : list (elem Float),
    map_conv py_int EInt words = inl row -> forallb is_EInt row = true.
Proof.
  induction words as [| x words IH]; intros row H; cbn in H.
  - injection H as <-. reflexivity.
  - destruct (py_int x) as [z | err]; [| discriminate H].
    destruct (map_conv py_int EInt words) as [r | err]; [| discriminate H].
    injection H as <-. cbn. now apply IH.
Qed.

(** What a successful [array("int")] has done. *)
Lemma ReadStdIn_array_int_ok (st st' : stdio) (row : list (elem Float)) :
  ReadStdIn_array py_int py_float str_split "int" st = (Ok row, st') ->
  stdin st' = snd (take_line (stdin st))
  /\ critical st' = critical st
  /\ forallb is_EInt row = true.
Proof.
  unfold ReadStdIn_array. cbn [String.eqb Ascii.eqb Bool.eqb orb].
  unfold io_bind, readline.
  destruct (fst (take_line (stdin st)) =? "")%string; [discriminate |].
  unfold convert_words. cbn [String.eqb Ascii.eqb Bool.eqb].
  destruct (map_conv py_int EInt _) as [r | err] eqn:Hconv; [| discriminate].
  intros H. injection H as <- <-. cbn [stdin critical].
  repeat split. now apply (map_conv_EInt _ _ Hconv).
Qed.

Lemma matrix_rows_ok (n : Z) (k : nat) :
  forall (M M' : list (list (elem Float))) (st : stdio),
    fst (matrix_rows py_int py_float str_split repr_float repr_str n k M st) = Ok M' ->
    exists rows,
      M' = M ++ rows
      /\ length rows = k
      /\ Forall (fun row => Z.of_nat (length row) = n /\ forallb is_EInt row = true)
                rows
      /\ stdin (snd (matrix_rows py_int py_float str_split repr_float repr_str
                       n k M st))
         = drop_lines k (stdin st)
      /\ critical (snd (matrix_rows py_int py_float str_split repr_float repr_str
                          n k M st))
         = critical st.
Proof.
  induction k as [| k IH]; intros M M' st H.
  - cbn in H. injection H as <-. exists []. rewrite app_nil_r.
    repeat split. constructor.
  - cbn [matrix_rows] in *. unfold io_bind in *.
    destruct (ReadStdIn_array py_int py_float str_split "int" st)
      as [[row | e] st1] eqn:Harr; [| discriminate H].
    destruct (ReadStdIn_array_int_ok st st1 row Harr) as (Hin & Hcr & Hints).
    destruct (Z.eqb_spec (Z.of_nat (length row)) n) as [Hlen | Hlen];
      cbn [negb] in *; [| discriminate H].
    destruct (IH (M ++ [row]) M' st1 H) as (rows & HM & Hk & Hall & Hstd & Hcrit).
    exists (row :: rows). split; [rewrite HM, <- app_assoc; reflexivity |].
    split; [cbn; now rewrite Hk |]. split; [constructor; auto |].
    split.
    + rewrite Hstd, Hin. reflexivity.
    + rewrite Hcrit, Hcr. reflexivity.
Qed.

(** X13. Whenever [ReadStdIn.matrix] returns, [n] is at least one and
    the result is a square matrix of integers: [n] rows of [n] integers
    each; exactly [n] lines of standard input have been read and nothing
    has been logged. *)
Theorem ReadStdIn_matrix_square (n : Z) (st : stdio) (M : list (list (elem Float))) :
  fst (ReadStdIn_matrix py_int py_float str_split repr_float repr_str n st) = Ok M ->
  1 <= n
  /\ Z.of_nat (length M) = n
  /\ Forall (fun row => Z.of_nat (length row) = n /\ forallb is_EInt row = true) M
  /\ stdin (snd (ReadStdIn_matrix py_int py_float str_split repr_float repr_str n st))
     = drop_lines (Z.to_nat n) (stdin st)
  /\ critical (snd (ReadStdIn_matrix py_int py_float str_split repr_float repr_str
                      n st))
     = critical st.
Proof.
  unfold ReadStdIn_matrix.
  destruct (Z.ltb_spec n 1) as [Hlt | Hge]; [discriminate |].
  intros H.
  destruct (matrix_rows_ok n (Z.to_nat n) [] M st H)
    as (rows & HM & Hk & Hall & Hstd & Hcrit).
  cbn [app] in HM. subst M.
  split; [exact Hge |]. split; [lia |]. split; [exact Hall |].
  split; assumption.
Qed.

Lemma take_line_line (l rest : string) :
  is_line l = true -> take_line (l ++ rest) = (l, rest).
Proof.
  induction l as [| c l IH]; [discriminate |].
  cbn [is_line append take_line]. destruct (Ascii.eqb c LF).
  - intros H. apply String.eqb_eq in H. subst l. reflexivity.
  - intros H. now rewrite (IH H).
Qed.

Lemma is_line_not_empty (l : string) : is_line l = true -> (l =? "")%string = false.
Proof. destruct l; [discriminate | reflexivity]. Qed.

(** [array("int")] on a full line whose words all convert. *)
Lemma ReadStdIn_array_int_line (l rest : string) (c : list string)
    (row : list (elem Float)) :
  is_line l = true ->
  map_conv py_int EInt (str_split l) = inl row ->
  ReadStdIn_array py_int py_float str_split "int"
    {| stdin := l ++ rest; critical := c |}
  = (Ok row, {| stdin := rest; critical := c |}).
Proof.
  intros Hl Hrow. unfold ReadStdIn_array. cbn [String.eqb Ascii.eqb Bool.eqb orb].
  unfold io_bind, readline. cbn [stdin critical].
  rewrite (take_line_line l rest Hl). cbn [fst snd].
  rewrite (is_line_not_empty l Hl).
  unfold convert_words. cbn [String.eqb Ascii.eqb Bool.eqb].
  rewrite Hrow. reflexivity.
Qed.

Lemma matrix_rows_lines (n : Z) (rest : string) (c : list string)
    (ls : list string) (rows : list (list (elem Float))) :
  Forall2 (fun l row => is_line l = true
                        /\ map_conv py_int EInt (str_split l) = inl row
                        /\ Z.of_nat (length row) = n) ls rows ->
  forall M,
    matrix_rows py_int py_float str_split repr_float repr_str n (length ls) M
      {| stdin := String.concat "" ls ++ rest; critical := c |}
    = (Ok (M ++ rows), {| stdin := rest; critical := c |}).
Proof.
  induction 1 as [| l row ls rows (Hl & Hrow & Hlen) _ IH]; intros M.
  - cbn. now rewrite app_nil_r.
  - cbn [length matrix_rows]. unfold io_bind.
    rewrite concat_empty_cons, append_assoc_string.
    rewrite (ReadStdIn_array_int_line l _ c row Hl Hrow).
    rewrite Hlen, Z.eqb_refl. cbn [negb].
    rewrite IH, <- app_assoc. reflexivity.
Qed.

(** X14. When standard input starts with [n >= 1] full lines, each made
    of words that [int] converts and each with [n] of them,
    [ReadStdIn.matrix] returns the rows of these integers in the order of
    the lines, leaves the rest of the input unread and logs nothing. *)
Theorem ReadStdIn_matrix_reads_rows (n : Z) (rest : string) (c : list string)
    (ls : list string) (rows : list (list (elem Float))) :
  1 <= n ->
  length ls = Z.to_nat n ->
  Forall2 (fun l row => is_line l = true
                        /\ map_conv py_int EInt (str_split l) = inl row
                        /\ Z.of_nat (length row) = n) ls rows ->
  ReadStdIn_matrix py_int py_float str_split repr_float repr_str n
    {| stdin := String.concat "" ls ++ rest; critical := c |}
  = (Ok rows, {| stdin := rest; critical := c |}).
Proof.
  intros Hn Hls Hall. unfold ReadStdIn_matrix.
  destruct (Z.ltb_spec n 1); [lia |].
  rewrite <- Hls. exact (matrix_rows_lines n rest c ls rows Hall []).
Qed.

End ReadStdInFacts.

(** ** Closed instances for [ReadStdIn] *)

(** Two lines, each ended by a line feed: three strings, the last one
    empty. *)
Lemma ReadStdIn_string_round_trip_witness :
  ReadStdIn_string two_by_two
  = (Ok ["1 2"; "3 4"; ""], {| stdin := ""; critical := [] |})
  /\ {| stdin := ""; critical := [] |}
     = {| stdin := ""; critical := critical two_by_two |}
  /\ String.concat nl ["1 2"; "3 4"; ""] = stdin two_by_two
  /\ length ["1 2"; "3 4"; ""] = S (occurrences LF (stdin two_by_two))
  /\ Forall (fun x => occurrences LF x = O) ["1 2"; "3 4"; ""].
Proof.
  assert (H : ReadStdIn_string two_by_two
              = (Ok ["1 2"; "3 4"; ""], {| stdin := ""; critical := [] |}))
    by reflexivity.
  split; [exact H |].
  exact (ReadStdIn_string_round_trip two_by_two _ _ H).
Defined.

Lemma ReadStdIn_matrix_square_witness :
  fst (ReadStdIn_matrix sample_int sample_float sample_split
         (fun _ => "") (fun s => s) 2 two_by_two)
  = Ok [[EInt 1; EInt 2]; [EInt 3; EInt 4]]
  /\ 1 <= 2
  /\ Z.of_nat (length [[@EInt unit 1; EInt 2]; [EInt 3; EInt 4]]) = 2
  /\ Forall (fun row => Z.of_nat (length row) = 2 /\ forallb is_EInt row = true)
            [[@EInt unit 1; EInt 2]; [EInt 3; EInt 4]]
  /\ stdin (snd (ReadStdIn_matrix sample_int sample_float sample_split
                   (fun _ => "") (fun s => s) 2 two_by_two))
     = drop_lines (Z.to_nat 2) (stdin two_by_two)
  /\ critical (snd (ReadStdIn_matrix sample_int sample_float sample_split
                      (fun _ => "") (fun s => s) 2 two_by_two))
     = critical two_by_two.
Proof.
  split; [reflexivity |].
  exact (ReadStdIn_matrix_square sample_int sample_float sample_split
           (fun _ => "") (fun s => s) 2 two_by_two
           [[EInt 1; EInt 2]; [EInt 3; EInt 4]] eq_refl).
Defined.

Lemma ReadStdIn_matrix_reads_rows_witness :
  1 <= 2
  /\ length [("1 2" ++ nl)%string; ("3 4" ++ nl)%string] = Z.to_nat 2
  /\ Forall2 (fun l row => is_line l = true
                           /\ map_conv sample_int EInt (sample_split l) = inl row
                           /\ Z.of_nat (length row) = 2)
             [("1 2" ++ nl)%string; ("3 4" ++ nl)%string]
             [[@EInt unit 1; EInt 2]; [EInt 3; EInt 4]]
  /\ ReadStdIn_matrix sample_int sample_float sample_split
       (fun _ => "") (fun s => s) 2
       {| stdin := String.concat "" [("1 2" ++ nl)%string; ("3 4" ++ nl)%string]
                   ++ "5";
          critical := [] |}
     = (Ok [[EInt 1; EInt 2]; [EInt 3; EInt 4]], {| stdin := "5"; critical := [] |}).
Proof.
  assert (H : Forall2 (fun l row => is_line l = true
                           /\ map_conv sample_int EInt (sample_split l) = inl row
                           /\ Z.of_nat (length row) = 2)
             [("1 2" ++ nl)%string; ("3 4" ++ nl)%string]
             [[@EInt unit 1; EInt 2]; [EInt 3; EInt 4]]).
  { repeat constructor. }
  split; [lia |]. split; [reflexivity |]. split; [exact H |].
  exact (ReadStdIn_matrix_reads_rows sample_int sample_float sample_split
           (fun _ => "") (fun s => s) 2 "5" []
           [("1 2" ++ nl)%string; ("3 4" ++ nl)%string]
           [[EInt 1; EInt 2]; [EInt 3; EInt 4]] ltac:(lia) eq_refl H).
Defined.

(** A row that is too short: the message logged and the error raised. *)
Example ReadStdIn_matrix_short_row :
  ReadStdIn_matrix sample_int sample_float sample_split (fun _ => "") (fun s => s) 2
    {| stdin := ("1 2" ++ nl ++ "3" ++ nl)%string; critical := [] |}
  = (Raise (ValueError "Row lengths not equal"),
     {| stdin := "";
        critical := [("matrix - input row not of length 2" ++ nl
                      ++ "Input: [3]")%string] |}).
Proof. reflexivity. Qed.

(** The end of input and a blank line are told apart by [array]. *)
Example ReadStdIn_array_end_of_input :
  ReadStdIn_array sample_int sample_float sample_split "int"
    {| stdin := ""; critical := [] |}
  = (Raise (ValueError "Empty input"), {| stdin := ""; critical := [] |})
  /\ ReadStdIn_array sample_int sample_float sample_split "int"
       {| stdin := nl; critical := [] |}
     = (Ok [], {| stdin := ""; critical := [] |}).
Proof. split; reflexivity. Qed.

(** [integer] on a line that is not a number: the line is consumed, the
    failure is logged with the line, and [ValueError] carries the message
    of [int]. *)
Example ReadStdIn_integer_not_a_number :
  ReadStdIn_integer sample_int {| stdin := ("x" ++ nl ++ "7" ++ nl)%string; critical := [] |}
  = (Raise (ValueError "invalid literal for int() with base 10"),
     {| stdin := ("7" ++ nl)%string;
        critical := [("integer - invalid literal for int() with base 10" ++ nl
                      ++ "Input: x" ++ nl)%string] |}).
Proof. reflexivity. Qed.
